(** * OpenDutchWordnet: the [Synset] view over an XML element

    A verification development for [opendutchwordnet/synset.py].

    The module wraps one [<Synset>] element of an lxml element tree and offers
    accessors ([id], [ili], [glosses], [all_relations], [relations], [pos])
    and two mutators ([remove], [add_relation]).

    Modelling decisions, in the order of the file:

    - Python exceptions and the mutable tree are explicit: a computation is a
      function from the element store to an outcome and the store it leaves
      behind, also when it raises (a call that fails half way leaves its
      earlier writes in the tree).
    - The element tree follows lxml, the library the module prefers at import
      and the only one of the two that has [getparent]: an element has one
      parent, [append] moves an element that already has one, [SubElement]
      creates an element and attaches it in one go.  Elements are referred to
      by their address in the store, so two references to one element (the
      [refs_el] kept by the constructor and the child found in the tree) are
      the same address.  The store holds element nodes with their tag,
      attributes, children and parent; text, comments and namespaces do not
      occur in the module and are left out.
    - A string is a sequence of characters with codes below 256.  The
      attribute values of a parsed document are XML character data; a string
      that is handed to [SubElement] need not be, and lxml refuses it then.
    - [find] and [iterfind] take the path as text, the way the module passes
      it, and [relations] builds that text by interpolation.  The tokenizer of
      the path language is modelled in full; of the language itself the
      fragment made of child steps by tag and of attribute predicates is
      interpreted, and a path that leaves the fragment has the outcome
      [Beyond], about which nothing is claimed. *)

From Stdlib Require Import String Ascii List Arith Lia Bool.
From stdpp Require Import base tactics option list strings.

Local Open Scope string_scope.
Local Open Scope list_scope.

(** ** Outcomes of Python calls *)

(** The exceptions that the module and the library calls it makes can raise,
    with their message. *)
Inductive exn :=
| AttributeError (msg : string)
| ValueError (msg : string)
| SyntaxError (msg : string)
| TypeError (msg : string)
| IndexError (msg : string)
| OtherError (cls msg : string).

(** How a call ends: it returns a value, it raises, or it leaves the part of
    the path language that is interpreted below ([Beyond]). *)
Inductive outcome (A : Type) :=
| Returns (a : A)
| Raises (e : exn)
| Beyond.
Arguments Returns {A} a.
Arguments Raises {A} e.
Arguments Beyond {A}.

Definition outcome_bind {A B} (o : outcome A) (k : A -> outcome B) : outcome B :=
  match o with
  | Returns a => k a
  | Raises e => Raises e
  | Beyond => Beyond
  end.

(** ** The element store *)

Module tree.

(** An element is referred to by its address in the store. *)
Abbreviation elem := nat (only parsing).

Record node := Node {
  tag : string;
  attrib : list (string * string);
  children : list elem;
  parent : option elem
}.

Abbreviation store := (list node) (only parsing).

Definition set_parent (p : option elem) (n : node) : node :=
  Node (tag n) (attrib n) (children n) p.

Definition add_child (c : elem) (n : node) : node :=
  Node (tag n) (attrib n) (children n ++ [c]) (parent n).

Definition drop_child (c : elem) (n : node) : node :=
  Node (tag n) (attrib n) (filter (fun x => x <> c) (children n)) (parent n).

Fixpoint assoc (key : string) (l : list (string * string)) : option string :=
  match l with
  | [] => None
  | (k, v) :: l' => if String.eqb k key then Some v else assoc key l'
  end.

(** [el.get(key)]: the value of the attribute, [None] when it is absent. *)
Definition get (s : store) (e : elem) (key : string) : option string :=
  match s !! e with
  | Some n => assoc key (attrib n)
  | None => None
  end.

Definition tag_of (s : store) (e : elem) : option string :=
  tag <$> s !! e.

Definition children_of (s : store) (e : elem) : list elem :=
  match s !! e with
  | Some n => children n
  | None => []
  end.

(** [el.getparent()] *)
Definition getparent (s : store) (e : elem) : option elem :=
  match s !! e with
  | Some n => parent n
  | None => None
  end.

(** [el.iterchildren(tag)]: the children with that tag, in document order. *)
Definition iterchildren (s : store) (e : elem) (t : string) : list elem :=
  filter (fun c => tag_of s c = Some t) (children_of s e).

(** No dangling reference: the children and the parent that a node names are
    addresses of the store. *)
Definition closedb (s : store) : bool :=
  forallb (fun n =>
             forallb (fun c => Nat.ltb c (length s)) (children n)
             && match parent n with
                | Some p => Nat.ltb p (length s)
                | None => true
                end) s.

Definition closed (s : store) : Prop := closedb s = true.

End tree.

(** ** Computations over the store *)

Definition M (A : Type) : Type := tree.store -> outcome A * tree.store.

Definition ret {A} (a : A) : M A := fun s => (Returns a, s).
Definition raise {A} (e : exn) : M A := fun s => (Raises e, s).
Definition bind {A B} (m : M A) (k : A -> M B) : M B :=
  fun s =>
    match m s with
    | (Returns a, s') => k a s'
    | (Raises e, s') => (Raises e, s')
    | (Beyond, s') => (Beyond, s')
    end.
(** A read of the tree: the store is left as it is. *)
Definition reading {A} (f : tree.store -> outcome A) : M A :=
  fun s => (f s, s).

Notation "'let*' x ':=' m 'in' k" := (bind m (fun x => k))
  (at level 10, x pattern, m at level 100, k at level 200).

(** ** The path language of [find] and [iterfind]

    lxml hands the path text to its port of ElementPath.  The text is cut into
    tokens by one regular expression, tried at every position with its
    alternatives in this order: a quoted string (either quote, up to the next
    quote of the same kind), [::], [//] or [/], [..], [()], one of the
    characters [/.*:[]()@=], a name (an optional [{...}] part, then characters
    that are none of [/[]()@=] and no white space), white space.  A token is
    the pair of the regular expression's two groups: the first is the matched
    text for every alternative but the name and white space, the second is the
    name. *)

Module ElementPath.

Definition token : Type := string * string.

Definition dquote : ascii := "034"%char.
Definition squote : ascii := "039"%char.

Definition is_space (c : ascii) : bool :=
  let n := nat_of_ascii c in
  (((9 <=? n) && (n <=? 13)) || ((28 <=? n) && (n <=? 32))
   || (n =? 133) || (n =? 160))%nat.

Definition mem_char (c : ascii) (s : string) : bool :=
  existsb (Ascii.eqb c) (list_ascii_of_string s).

(** The characters a name is made of.  The exclamation mark is a name
    character for the older tokenizers and half of the token [!=] for the
    newer ones: it ends a name here and is refused by [lex]. *)
Definition name_char (c : ascii) : bool :=
  negb (mem_char c "/[]()@!=" || is_space c).

(** The longest prefix whose characters satisfy [p], and what follows it. *)
Fixpoint span (p : ascii -> bool) (s : string) : string * string :=
  match s with
  | String c r =>
      if p c then let '(a, b) := span p r in (String c a, b)
      else (EmptyString, s)
  | EmptyString => (EmptyString, EmptyString)
  end.

(** The text before the first [q], and what follows that [q]. *)
Fixpoint upto (q : ascii) (s : string) : option (string * string) :=
  match s with
  | EmptyString => None
  | String c r =>
      if Ascii.eqb c q then Some (EmptyString, r)
      else match upto q r with
           | Some (a, b) => Some (String c a, b)
           | None => None
           end
  end.

Definition starts_with (c : ascii) (s : string) : bool :=
  match s with
  | String d _ => Ascii.eqb c d
  | EmptyString => false
  end.

Definition tail (s : string) : string :=
  match s with
  | String _ r => r
  | EmptyString => EmptyString
  end.

Inductive lexeme :=
| Lex (t : token) (rest : string)
| LexBeyond.

(** The name alternative at the head of a non-empty [s]. *)
Definition lex_name (s : string) : lexeme :=
  let plain := let '(nm, rest) := span name_char s in Lex ("", nm) rest in
  match s with
  | String c r =>
      if Ascii.eqb c "{" then
        match upto "}" r with
        | Some (String x ns, r') =>
            match span name_char r' with
            | (String d nm, rest) =>
                Lex ("", String "{" (String x ns +:+ String "}" (String d nm))) rest
            | (EmptyString, _) => plain
            end
        | _ => plain
        end
      else plain
  | EmptyString => plain
  end.

Definition lex_quoted (q : ascii) (r : string) : lexeme :=
  match upto q r with
  | Some (body, rest) => Lex (String q (body +:+ String q ""), "") rest
  | None => lex_name (String q r)
  end.

(** The first match of the regular expression at the head of [String c r]. *)
Definition lex (c : ascii) (r : string) : lexeme :=
  if Ascii.eqb c squote then lex_quoted squote r
  else if Ascii.eqb c dquote then lex_quoted dquote r
  else if Ascii.eqb c ":" then
    if starts_with ":" r then Lex ("::", "") (tail r) else Lex (":", "") r
  else if Ascii.eqb c "/" then
    if starts_with "/" r then Lex ("//", "") (tail r) else Lex ("/", "") r
  else if Ascii.eqb c "." then
    if starts_with "." r then Lex ("..", "") (tail r) else Lex (".", "") r
  else if Ascii.eqb c "(" then
    if starts_with ")" r then Lex ("()", "") (tail r) else Lex ("(", "") r
  else if Ascii.eqb c "!" then LexBeyond
  else if mem_char c "*[])@=" then Lex (String c "", "") r
  else if is_space c then Lex ("", "") (snd (span is_space r))
  else lex_name (String c r).

(** [xpath_tokenizer_re.findall(pattern)]; every token takes at least one
    character, so [fuel] as long as the text is enough. *)
Fixpoint findall (fuel : nat) (s : string) : option (list token) :=
  match s with
  | EmptyString => Some []
  | String c r =>
      match fuel with
      | 0 => None
      | S fuel' =>
          match lex c r with
          | Lex t rest => cons t <$> findall fuel' rest
          | LexBeyond => None
          end
      end
  end.

Definition xpath_tokenizer (pattern : string) : option (list token) :=
  findall (String.length pattern) pattern.

(** The selectors a path compiles to, for the fragment interpreted here. *)
Inductive selector :=
| child (tag : string)
| attr_present (key : string)
| attr_equals (key value : string).

(** A tag or attribute name without namespace part, prefix or wildcard. *)
Definition plain_name (s : string) : bool :=
  negb (String.eqb s "")
  && forallb (fun c => negb (mem_char c "{}:*")) (list_ascii_of_string s).

(** The tokens of a predicate up to its closing bracket, and the tokens after
    the bracket. *)
Fixpoint until_bracket (ts : list token) : option (list token * list token) :=
  match ts with
  | [] => None
  | t :: ts' =>
      if String.eqb (fst t) "]" then Some ([], ts')
      else match until_bracket ts' with
           | Some (body, rest) => Some (t :: body, rest)
           | None => None
           end
  end.

(** [token[0][1:-1]] *)
Definition strip_quotes (s : string) : string :=
  match s with
  | String _ r => String.substring 0 (String.length r - 1) r
  | EmptyString => EmptyString
  end.

Definition is_quoted (t : token) : bool :=
  starts_with squote (fst t) || starts_with dquote (fst t).

(** In [prepare_predicate]: a quoted string counts as type ['] with its text
    as value. *)
Definition normalise (t : token) : token :=
  if is_quoted t then (String squote "", strip_quotes (fst t)) else t.

Definition is_whitespace (t : token) : bool :=
  String.eqb (fst t) "" && String.eqb (snd t) "".

Definition signature_of (body : list token) : string :=
  String.concat "" (map (fun t => if String.eqb (fst t) "" then "-" else fst t) body).

(** The signatures of the predicates that the library knows and that are not
    interpreted here: [tag], [tag='text'], [.='text'], positions. *)
Definition other_signatures : list string :=
  ["-"; "-='"; ".='"; "-()"; "-()-"].

Definition prepare_predicate (ts : list token)
  : outcome (selector * list token) :=
  match until_bracket ts with
  | None => Beyond
  | Some (body, rest) =>
      let body := map normalise (List.filter (fun t => negb (is_whitespace t)) body) in
      let signature := signature_of body in
      let predicate := map snd body in
      if negb (forallb (fun t => negb (String.eqb (fst t) "")
                                 || negb (mem_char ":" (snd t))) body)
      then Beyond
      else if String.eqb signature "@-" then
        Returns (attr_present (nth 1 predicate ""), rest)
      else if String.eqb signature "@-='" then
        Returns (attr_equals (nth 1 predicate "") (List.last predicate ""), rest)
      else if existsb (String.eqb signature) other_signatures then Beyond
      else Raises (SyntaxError "invalid predicate")
  end.

(** The loop of [_build_path_iterator]: one selector per step, a [/] between
    two steps is skipped. *)
Fixpoint build (fuel : nat) (ts : list token) : outcome (list selector) :=
  match fuel, ts with
  | _, [] => Returns []
  | 0, _ => Beyond
  | S fuel', t :: ts' =>
      let continue (sel : selector) (rest : list token) :=
        let rest' := match rest with
                     | t' :: rest' => if String.eqb (fst t') "/" then rest' else rest
                     | [] => []
                     end in
        outcome_bind (build fuel' rest') (fun sels => Returns (sel :: sels)) in
      if String.eqb (fst t) "" then
        if plain_name (snd t) then continue (child (snd t)) ts' else Beyond
      else if String.eqb (fst t) "[" then
        outcome_bind (prepare_predicate ts') (fun '(sel, rest) => continue sel rest)
      else Beyond
  end.

Definition ends_with (c : ascii) (s : string) : bool :=
  match String.length s with
  | 0 => false
  | S n => match String.get n s with
           | Some d => Ascii.eqb c d
           | None => false
           end
  end.

Definition compile (path : string) : outcome (list selector) :=
  if starts_with "/" path then
    Raises (SyntaxError "cannot use absolute path on element")
  else if ends_with "/" path then Beyond
  else match xpath_tokenizer path with
       | None | Some [] => Beyond
       | Some ts => build (length ts) ts
       end.

Definition select (s : tree.store) (sel : selector) (result : list tree.elem)
  : list tree.elem :=
  match sel with
  | child t => flat_map (fun e => tree.iterchildren s e t) result
  | attr_present key =>
      filter (fun e => tree.get s e key <> None) result
  | attr_equals key value =>
      filter (fun e => tree.get s e key = Some value) result
  end.

Definition run (s : tree.store) (sels : list selector) (e : tree.elem)
  : list tree.elem :=
  fold_left (fun result sel => select s sel result) sels [e].

(** [el.iterfind(path)], consumed to the end. *)
Definition iterfind (s : tree.store) (e : tree.elem) (path : string)
  : outcome (list tree.elem) :=
  outcome_bind (compile path) (fun sels => Returns (run s sels e)).

(** [el.find(path)]: the first element of [iterfind], or [None]. *)
Definition find (s : tree.store) (e : tree.elem) (path : string)
  : outcome (option tree.elem) :=
  outcome_bind (iterfind s e path) (fun l => Returns (head l)).

End ElementPath.

(** ** The element interface of lxml that the module calls *)

Module etree.

Definition get := tree.get.
Definition getparent := tree.getparent.
Definition find := ElementPath.find.
Definition iterfind := ElementPath.iterfind.

(** Whether [a] is [b] or one of the ancestors of [b]. *)
Fixpoint is_ancestor_or_same (fuel : nat) (s : tree.store) (a b : tree.elem)
  : bool :=
  if Nat.eqb a b then true
  else match fuel with
       | 0 => false
       | S fuel' =>
           match tree.getparent s b with
           | Some p => is_ancestor_or_same fuel' s a p
           | None => false
           end
       end.

(** Take [c] out of the children of its parent, if it has one. *)
Definition unlink (c : tree.elem) (s : tree.store) : tree.store :=
  match tree.getparent s c with
  | Some q => alter (tree.set_parent None) c (alter (tree.drop_child c) q s)
  | None => s
  end.

(** Make [c] the last child of [p]. *)
Definition link (p c : tree.elem) (s : tree.store) : tree.store :=
  alter (tree.set_parent (Some p)) c (alter (tree.add_child c) p s).

(** The characters that lxml takes into a tree: tab, newline, carriage
    return, and every character from the space on.  NUL and the other control
    characters are refused. *)
Definition xml_char (c : ascii) : bool :=
  let n := nat_of_ascii c in
  Nat.eqb n 9 || Nat.eqb n 10 || Nat.eqb n 13 || Nat.leb 32 n.

Fixpoint xml_compatible (x : string) : bool :=
  match x with
  | EmptyString => true
  | String c r => xml_char c && xml_compatible r
  end.

Definition not_xml_compatible : exn :=
  ValueError
    "All strings must be XML compatible: Unicode or ASCII, no NULL bytes or control characters".

(** A new element with this tag and these attributes, as the last child of
    [p]. *)
Definition attach (p : tree.elem) (tag : string)
    (attrib : list (string * string)) : M tree.elem :=
  fun s =>
    let c := length s in
    (Returns c, alter (tree.add_child c) p (s ++ [tree.Node tag attrib [] (Some p)])).

(** [etree.SubElement(parent, tag, attrib)]: a new element, attached as the
    last child of [p]; where the tag, an attribute name or an attribute value
    holds a character that lxml refuses, the call raises ValueError and the
    tree is as before the call.  The tags and the attribute names that the
    module passes are literals, XML names all of them; the further test of
    lxml that a tag and an attribute name are XML names is left out. *)
Definition SubElement (p : tree.elem) (tag : string)
    (attrib : list (string * string)) : M tree.elem :=
  fun s =>
    if xml_compatible tag
       && forallb (fun kv => xml_compatible (fst kv) && xml_compatible (snd kv)) attrib
    then attach p tag attrib s
    else (Raises not_xml_compatible, s).

(** [p.append(c)]: [c] leaves the parent it has and becomes the last child of
    [p]; an element is not appended to itself or below itself. *)
Definition append (p c : tree.elem) : M unit :=
  fun s =>
    if is_ancestor_or_same (length s) s c p
    then (Raises (ValueError "cannot append parent to itself"), s)
    else (Returns tt, link p c (unlink c s)).

(** [p.remove(c)] *)
Definition remove (p c : tree.elem) : M unit :=
  fun s =>
    if decide (tree.getparent s c = Some p)
    then (Returns tt, unlink c s)
    else (Raises (ValueError "Element is not a child of this node."), s).

End etree.

(** ** The [Relation] view *)

(** The class [Relation] is imported from [relation.py], a file of the
    repository that is not among the sources at hand; [synset.py] constructs
    it from a relation element and calls [get_reltype] and [get_target]. *)
Module Relation.

(** Modelled from the spec: the class [Relation] of [relation.py]; the spec
    describes it as a view of one relation element, constructed from that
    element. *)
Record t := make { relation_el : tree.elem }.

(** Modelled from the spec: [get_reltype] of [relation.py]; a relation has a
    type, a string, which the input format stores in the attribute
    [relType]. *)
Definition get_reltype (r : t) (s : tree.store) : option string :=
  etree.get s (relation_el r) "relType".

(** Modelled from the spec: [get_target] of [relation.py]; a relation has a
    target, the id of the target node, which the input format stores in the
    attribute [target]. *)
Definition get_target (r : t) (s : tree.store) : option string :=
  etree.get s (relation_el r) "target".

End Relation.

(** ** The class [Synset] *)

(** What a call can hand back where the docstring promises a tuple
    [(succes, message)]: that tuple, or the [None] of a function that ends
    without a [return]. *)
Inductive pyvalue :=
| PyNone
| PyTuple (succes : bool) (message : string).

Module Synset.

(** A [validate_relation(source, reltype, target)] bound to an instance: it
    returns ([None]) or raises, and does not write to the tree. *)
Definition validator : Type := option string -> string -> string -> option exn.

(** The attributes of an instance.  The first five are set by [__init__].
    [validate_relation] is what the lookup [self.validate_relation] finds: the
    class body defines no method of that name and [__init__] sets no such
    attribute, so for an instance of [Synset] the lookup finds nothing; a
    subclass or an assignment from outside can provide one. *)
Record t := {
  synset_el : tree.elem;
  reltypes : list string;
  syn_ids : list string;
  defs_els : option tree.elem;
  refs_el : option tree.elem;
  validate_relation : option validator
}.

Definition __init__ (synset_el : tree.elem) (reltypes syn_ids : list string)
    (s : tree.store) : outcome t :=
  outcome_bind (etree.find s synset_el "Definitions") (fun defs_els =>
  outcome_bind (etree.find s synset_el "SynsetRelations") (fun refs_el =>
  Returns {| synset_el := synset_el; reltypes := reltypes; syn_ids := syn_ids;
             defs_els := defs_els; refs_el := refs_el;
             validate_relation := None |})).

(** The same instance with a [validate_relation] attribute provided from
    outside the class. *)
Definition with_validate_relation (v : validator) (self : t) : t :=
  {| synset_el := synset_el self; reltypes := reltypes self;
     syn_ids := syn_ids self; defs_els := defs_els self;
     refs_el := refs_el self; validate_relation := Some v |}.

Definition id (self : t) (s : tree.store) : option string :=
  etree.get s (synset_el self) "id".

Definition ili (self : t) (s : tree.store) : option string :=
  etree.get s (synset_el self) "ili".

(** The test [def_el.get('language') in languages] compares the value of the
    attribute, a string or [None], with the members of a collection of
    strings. *)
Definition glosses (self : t) (languages : list string) (s : tree.store)
  : outcome (list (option string)) :=
  match defs_els self with
  | Some defs =>
      outcome_bind (etree.iterfind s defs "Definition") (fun def_els =>
      Returns (map (fun def_el => etree.get s def_el "gloss")
                 (filter (fun def_el =>
                            etree.get s def_el "language" ∈ (Some <$> languages))
                    def_els)))
  | None => Returns []
  end.

Definition default_languages : list string := ["en"; "nl"].

(** The generator, consumed to the end on the store [s]. *)
Definition all_relations (self : t) (s : tree.store) : outcome (list Relation.t) :=
  let path_to_rels := "SynsetRelations/SynsetRelation" in
  outcome_bind (etree.iterfind s (synset_el self) path_to_rels) (fun relation_els =>
  Returns (map Relation.make relation_els)).

(** [x[-1]] on a string *)
Definition last_char (x : string) : option ascii :=
  String.get (String.length x - 1) x.

Definition pos (self : t) (s : tree.store) : outcome string :=
  match id self s with
  | None => Raises (TypeError "'NoneType' object is not subscriptable")
  | Some x =>
      match last_char x with
      | Some c => Returns (String c "")
      | None => Raises (IndexError "string index out of range")
      end
  end.

(** The query of [relations]: the path to the relation elements, then the
    predicate on [relType] with [reltype] pasted between double quotes by the
    format operator. *)
Definition xml_query (reltype : string) : string :=
  "SynsetRelations/SynsetRelation[@relType="
  +:+ String ElementPath.dquote (reltype +:+ String ElementPath.dquote "]").

Definition relations (self : t) (reltype : string) (s : tree.store)
  : outcome (list Relation.t) :=
  outcome_bind (etree.iterfind s (synset_el self) (xml_query reltype)) (fun relation_els =>
  Returns (map Relation.make relation_els)).

Definition remove (self : t) : M unit :=
  fun s =>
    match etree.getparent s (synset_el self) with
    | Some p => etree.remove p (synset_el self) s
    | None => (Raises (AttributeError "'NoneType' object has no attribute 'remove'"), s)
    end.

(** [self.validate_relation(source, reltype, target)]; the value it returns is
    dropped. *)
Definition call_validate_relation (self : t) (source : option string)
    (reltype target : string) : M unit :=
  match validate_relation self with
  | None => raise (AttributeError "'Synset' object has no attribute 'validate_relation'")
  | Some v =>
      match v source reltype target with
      | None => ret tt
      | Some e => raise e
      end
  end.

Definition add_relation (self : t) (reltype target : string) : M pyvalue :=
  let* source := reading (fun s => Returns (id self s)) in
  let* _ := call_validate_relation self source reltype target in
  let* existing_rels :=
    reading (fun s =>
      outcome_bind (all_relations self s) (fun rels =>
      Returns (map (fun rel_el => (Relation.get_reltype rel_el s,
                                   Relation.get_target rel_el s)) rels))) in
  if decide ((Some reltype, Some target) ∈ existing_rels)
  then raise (ValueError "relation already exists")
  else
    let* _ :=
      match refs_el self with
      | None =>
          let* new_refs_el :=
            etree.SubElement (synset_el self) "SynsetRelations" [] in
          etree.append (synset_el self) new_refs_el
      | Some _ => ret tt
      end in
    let* new_rel_el :=
      etree.SubElement (synset_el self) "SynsetRelation"
        [("provenance", "odwn"); ("relType", reltype); ("target", target)] in
    let* _ :=
      match refs_el self with
      | Some refs => etree.append refs new_rel_el
      | None => raise (AttributeError "'NoneType' object has no attribute 'append'")
      end in
    ret PyNone.

End Synset.

(** ** Reference definitions, after the words of the specification *)

Module Spec.

(** Modelled from the spec: the validation routine that [add_relation] calls
    is defined nowhere in [synset.py].  The spec has it check that the type is
    a member of the known relation-type set and the target a member of the
    known node-identifier set, and names the two kinds of error,
    InvalidRelationType and InvalidTarget. *)
Definition validate_relation (reltypes syn_ids : list string) : Synset.validator :=
  fun _ reltype target =>
    if decide (reltype ∈ reltypes) then
      if decide (target ∈ syn_ids) then None
      else Some (OtherError "InvalidTarget" target)
    else Some (OtherError "InvalidRelationType" reltype).

(** The Definitions section of a node: its first child with that tag. *)
Definition definitions_section (s : tree.store) (e : tree.elem)
  : option tree.elem :=
  head (tree.iterchildren s e "Definitions").

(** The Definition elements of a node, in document order. *)
Definition definition_elements (s : tree.store) (e : tree.elem)
  : list tree.elem :=
  match definitions_section s e with
  | Some defs => tree.iterchildren s defs "Definition"
  | None => []
  end.

Definition language_in (s : tree.store) (languages : list string)
    (d : tree.elem) : bool :=
  match tree.get s d "language" with
  | Some l => existsb (String.eqb l) languages
  | None => false
  end.

(** "the list of gloss texts whose language attribute is in the given set, in
    document order; an empty sequence if no definitions section exists" *)
Definition gloss_texts (s : tree.store) (e : tree.elem) (languages : list string)
  : list (option string) :=
  map (fun d => tree.get s d "gloss")
    (List.filter (language_in s languages) (definition_elements s e)).

(** The relation elements of a node in document order: the [SynsetRelation]
    children of its [SynsetRelations] children. *)
Definition relation_elements (s : tree.store) (e : tree.elem) : list tree.elem :=
  flat_map (fun c => tree.iterchildren s c "SynsetRelation")
    (tree.iterchildren s e "SynsetRelations").

(** The (type, target) content of a sequence of relations. *)
Definition content (s : tree.store) (rels : list Relation.t)
  : list (option string * option string) :=
  map (fun r => (Relation.get_reltype r s, Relation.get_target r s)) rels.

(** "filtered by [type]": the subsequence of the relations whose type is [t]. *)
Definition of_type (s : tree.store) (t : string) (rels : list Relation.t)
  : list Relation.t :=
  List.filter (fun r => match Relation.get_reltype r s with
                        | Some t' => String.eqb t' t
                        | None => false
                        end) rels.

End Spec.

(** ** The example of the class docstring

    The [<Synset>] element of the docstring, as the only child of a
    [<Lexicon>] element.  Addresses: 0 the lexicon, 1 the synset, 2 its
    definition, 3 the relations container, 4 and 5 the two relations. *)

Module Docstring.

Definition doc : tree.store :=
  [ tree.Node "Lexicon" [] [1] None;
    tree.Node "Synset" [("id", "eng-30-00324560-v"); ("ili", "i23355")] [2; 3] (Some 0);
    tree.Node "Definition"
      [("gloss", "cook with dry heat, usually in an oven"); ("language", "en");
       ("provenance", "pwn")] [] (Some 1);
    tree.Node "SynsetRelations" [] [4; 5] (Some 1);
    tree.Node "SynsetRelation"
      [("provenance", "pwn"); ("relType", "has_hyperonym");
       ("target", "eng-30-00322847-v")] [] (Some 3);
    tree.Node "SynsetRelation"
      [("provenance", "pwn"); ("relType", "has_hyponym");
       ("target", "eng-30-00325085-v")] [] (Some 3) ].

Definition known_reltypes : list string := ["has_hyperonym"; "has_hyponym"].
Definition known_ids : list string :=
  ["eng-30-00324560-v"; "eng-30-00322847-v"; "eng-30-00325085-v"].

(** [Synset(synset_el, reltypes, syn_ids)] on the element at address 1. *)
Definition synset : Synset.t :=
  {| Synset.synset_el := 1; Synset.reltypes := known_reltypes;
     Synset.syn_ids := known_ids; Synset.defs_els := None;
     Synset.refs_el := Some 3; Synset.validate_relation := None |}.

End Docstring.

(** ** A node in the input format of the specification

    A [<Synset>] with a [<Definitions>] section of three definitions and a
    relations container.  Addresses: 0 the lexicon, 1 the synset, 2 the
    definitions section, 3 to 5 the definitions, 6 the relations container,
    7 and 8 the relations. *)

Module Format.

Definition doc : tree.store :=
  [ tree.Node "Lexicon" [] [1] None;
    tree.Node "Synset" [("id", "eng-30-00324560-v"); ("ili", "i23355")] [2; 6] (Some 0);
    tree.Node "Definitions" [] [3; 4; 5] (Some 1);
    tree.Node "Definition"
      [("gloss", "cook with dry heat, usually in an oven"); ("language", "en");
       ("provenance", "pwn")] [] (Some 2);
    tree.Node "Definition"
      [("gloss", "cuire au four"); ("language", "fr"); ("provenance", "x")]
      [] (Some 2);
    tree.Node "Definition"
      [("gloss", "in een oven bereiden"); ("language", "nl");
       ("provenance", "odwn")] [] (Some 2);
    tree.Node "SynsetRelations" [] [7; 8] (Some 1);
    tree.Node "SynsetRelation"
      [("provenance", "pwn"); ("relType", "has_hyperonym");
       ("target", "eng-30-00322847-v")] [] (Some 6);
    tree.Node "SynsetRelation"
      [("provenance", "pwn"); ("relType", "has_hyponym");
       ("target", "eng-30-00325085-v")] [] (Some 6) ].

Definition synset : Synset.t :=
  {| Synset.synset_el := 1; Synset.reltypes := Docstring.known_reltypes;
     Synset.syn_ids := Docstring.known_ids; Synset.defs_els := Some 2;
     Synset.refs_el := Some 6; Synset.validate_relation := None |}.

End Format.

(** ** A node whose relation types contain a double quote

    An attribute value with a double quote in it is well-formed XML (between
    single quotes, or with the quote written as an entity).  Addresses: 0 the
    lexicon, 1 the synset, 2 the relations container, 3 to 5 the relations.
    Below, Q stands for the double quote character: the three relation types
    are aQb, a, and aQ][@target=Qb. *)

Module Quoted.

(** aQb *)
Definition quoted_type : string :=
  String "a" (String ElementPath.dquote "b").

(** aQ][@target=Qb *)
Definition injected_type : string :=
  String "a" (String ElementPath.dquote
    ("][@target=" +:+ String ElementPath.dquote "b")).

Definition doc : tree.store :=
  [ tree.Node "Lexicon" [] [1] None;
    tree.Node "Synset" [("id", "eng-30-00324560-v")] [2] (Some 0);
    tree.Node "SynsetRelations" [] [3; 4; 5] (Some 1);
    tree.Node "SynsetRelation"
      [("provenance", "x"); ("relType", quoted_type); ("target", "t1")]
      [] (Some 2);
    tree.Node "SynsetRelation"
      [("provenance", "x"); ("relType", "a"); ("target", "b")] [] (Some 2);
    tree.Node "SynsetRelation"
      [("provenance", "x"); ("relType", injected_type); ("target", "t2")]
      [] (Some 2) ].

Definition synset : Synset.t :=
  {| Synset.synset_el := 1; Synset.reltypes := [quoted_type; "a"; injected_type];
     Synset.syn_ids := ["t1"; "b"; "t2"]; Synset.defs_els := None;
     Synset.refs_el := Some 2; Synset.validate_relation := None |}.

End Quoted.

(** ** A node without relations container

    Addresses: 0 the lexicon, 1 the synset, which has no child. *)

Module Bare.

Definition doc : tree.store :=
  [ tree.Node "Lexicon" [] [1] None;
    tree.Node "Synset" [("id", "eng-30-00324560-v"); ("ili", "i23355")] [] (Some 0) ].

Definition synset : Synset.t :=
  {| Synset.synset_el := 1; Synset.reltypes := Docstring.known_reltypes;
     Synset.syn_ids := Docstring.known_ids; Synset.defs_els := None;
     Synset.refs_el := None; Synset.validate_relation := None |}.

End Bare.

(** ** A relation type that XML cannot hold

    The letter a followed by the control character with code 1, as the one
    known relation type of a view of the node without relations container,
    and of a view of the docstring node. *)

Module Control.

Definition control_type : string := String "a" (String "001"%char "").

Definition bare_synset : Synset.t :=
  {| Synset.synset_el := 1; Synset.reltypes := [control_type];
     Synset.syn_ids := Docstring.known_ids; Synset.defs_els := None;
     Synset.refs_el := None; Synset.validate_relation := None |}.

Definition docstring_synset : Synset.t :=
  {| Synset.synset_el := 1; Synset.reltypes := [control_type];
     Synset.syn_ids := Docstring.known_ids; Synset.defs_els := None;
     Synset.refs_el := Some 3; Synset.validate_relation := None |}.

End Control.

(** ** Relating the tree before a call and the tree after it *)

Module Layout.


(** [o] is the first child of [e] with the tag [t], in document order; [None]
    where no child of [e] has that tag. *)
Definition first_with_tag (s : tree.store) (e : tree.elem) (t : string)
    (o : option tree.elem) : Prop :=
  match o with
  | Some r =>
      exists before after,
        tree.children_of s e = before ++ r :: after
        /\ tree.tag_of s r = Some t
        /\ forall c, c ∈ before -> tree.tag_of s c <> Some t
  | None => forall c, c ∈ tree.children_of s e -> tree.tag_of s c <> Some t
  end.

End Layout.

(** * Properties *)

(** ** The paths the module uses *)

Lemma filter_bool {A} (P : A -> Prop) `{!forall x, Decision (P x)}
    (f : A -> bool) (l : list A) :
  (forall x, P x <-> f x = true) -> filter P l = List.filter f l.
Proof.
  intros Hf. induction l as [|x l IH]; [reflexivity|].
  rewrite filter_cons. simpl. rewrite IH.
  destruct (decide (P x)) as [HP|HP].
  - apply Hf in HP. rewrite HP. reflexivity.
  - destruct (f x) eqn:E; [|reflexivity].
    exfalso. apply HP, Hf, E.
Qed.

Lemma compile_Definitions :
  ElementPath.compile "Definitions" = Returns [ElementPath.child "Definitions"].
Proof. vm_compute. reflexivity. Qed.

Lemma compile_Definition :
  ElementPath.compile "Definition" = Returns [ElementPath.child "Definition"].
Proof. vm_compute. reflexivity. Qed.

Lemma compile_SynsetRelations :
  ElementPath.compile "SynsetRelations"
  = Returns [ElementPath.child "SynsetRelations"].
Proof. vm_compute. reflexivity. Qed.

Lemma compile_path_to_rels :
  ElementPath.compile "SynsetRelations/SynsetRelation"
  = Returns [ElementPath.child "SynsetRelations";
             ElementPath.child "SynsetRelation"].
Proof. vm_compute. reflexivity. Qed.

Lemma iterfind_child s e path t :
  ElementPath.compile path = Returns [ElementPath.child t] ->
  etree.iterfind s e path = Returns (tree.iterchildren s e t).
Proof.
  intros H. unfold etree.iterfind, ElementPath.iterfind. rewrite H. simpl.
  unfold ElementPath.run. simpl. rewrite app_nil_r. reflexivity.
Qed.

Lemma find_child s e path t :
  ElementPath.compile path = Returns [ElementPath.child t] ->
  etree.find s e path = Returns (head (tree.iterchildren s e t)).
Proof.
  intros H. unfold etree.find, ElementPath.find.
  change (ElementPath.iterfind s e path) with (etree.iterfind s e path).
  rewrite (iterfind_child _ _ _ _ H). reflexivity.
Qed.

Lemma iterfind_path_to_rels s e :
  etree.iterfind s e "SynsetRelations/SynsetRelation"
  = Returns (Spec.relation_elements s e).
Proof.
  unfold etree.iterfind, ElementPath.iterfind.
  rewrite compile_path_to_rels. simpl. unfold ElementPath.run. simpl.
  rewrite app_nil_r. reflexivity.
Qed.

(** ** The tokenizer and the compiler always come to an end *)

Section Fuel.

Import ElementPath.

Lemma span_length p s a b :
  span p s = (a, b) -> String.length s = String.length a + String.length b.
Proof.
  revert a b. induction s as [|c s IH]; intros a b; simpl.
  - intros [= <- <-]. reflexivity.
  - destruct (p c).
    + destruct (span p s) as [a' b'] eqn:E. intros [= <- <-]. simpl.
      rewrite (IH a' b' eq_refl). reflexivity.
    + intros [= <- <-]. reflexivity.
Qed.

Lemma upto_length q s a b :
  upto q s = Some (a, b) -> String.length s = S (String.length a + String.length b).
Proof.
  revert a b. induction s as [|c s IH]; intros a b; simpl; [discriminate|].
  destruct (Ascii.eqb c q).
  - intros [= <- <-]. reflexivity.
  - destruct (upto q s) as [[a' b']|] eqn:E; [|discriminate].
    intros [= <- <-]. simpl. rewrite (IH a' b' eq_refl). reflexivity.
Qed.

Lemma lex_name_shorter c r t rest :
  name_char c = true ->
  lex_name (String c r) = Lex t rest -> String.length rest <= String.length r.
Proof.
  intros Hc. unfold lex_name.
  assert (Hplain :
    (let '(nm, rest0) := span name_char (String c r) in Lex ("", nm) rest0) = Lex t rest ->
    String.length rest <= String.length r).
  { simpl. rewrite Hc.
    destruct (span name_char r) as [a b] eqn:E. intros [= _ <-].
    apply span_length in E. lia. }
  destruct (Ascii.eqb c "{"); [|exact Hplain].
  destruct (upto "}" r) as [[[|x ns] r']|] eqn:Eu; try exact Hplain.
  destruct (span name_char r') as [[|d nm] rest0] eqn:Es; try exact Hplain.
  intros [= _ <-]. apply upto_length in Eu. apply span_length in Es. simpl in *. lia.
Qed.

Lemma lex_shorter c r t rest :
  lex c r = Lex t rest -> String.length rest <= String.length r.
Proof.
  unfold lex, lex_quoted.
  assert (Htail : forall d, starts_with d r = true -> String.length (tail r) <= String.length r)
    by (intros d _; destruct r; simpl; lia).
  repeat match goal with
  | |- context [if Ascii.eqb c ?d then _ else _] =>
      let E := fresh "E" in destruct (Ascii.eqb c d) eqn:E;
      [apply Ascii.eqb_eq in E; subst c|]
  end.
  - destruct (upto squote r) as [[a b]|] eqn:Eu.
    + intros [= _ <-]. apply upto_length in Eu. lia.
    + apply lex_name_shorter. reflexivity.
  - destruct (upto dquote r) as [[a b]|] eqn:Eu.
    + intros [= _ <-]. apply upto_length in Eu. lia.
    + apply lex_name_shorter. reflexivity.
  - destruct (starts_with ":" r) eqn:Es; intros [= _ <-]; [apply (Htail _ Es)|lia].
  - destruct (starts_with "/" r) eqn:Es; intros [= _ <-]; [apply (Htail _ Es)|lia].
  - destruct (starts_with "." r) eqn:Es; intros [= _ <-]; [apply (Htail _ Es)|lia].
  - destruct (starts_with ")" r) eqn:Es; intros [= _ <-]; [apply (Htail _ Es)|lia].
  - discriminate.
  - destruct (mem_char c "*[])@=") eqn:Em; [intros [= _ <-]; lia|].
    destruct (is_space c) eqn:Esp.
    + intros [= _ <-]. destruct (span is_space r) as [a b] eqn:Es.
      apply span_length in Es. simpl. lia.
    + apply lex_name_shorter. unfold name_char. rewrite Esp.
      unfold mem_char in *. cbn [list_ascii_of_string existsb] in *.
      repeat (apply orb_false_elim in Em as [? Em]).
      repeat match goal with
             | H : Ascii.eqb c _ = false |- _ => rewrite H; clear H
             end.
      reflexivity.
Qed.

Lemma findall_fuel_irrelevant n fuel1 fuel2 s :
  String.length s <= n -> n <= fuel1 -> n <= fuel2 ->
  findall fuel1 s = findall fuel2 s.
Proof.
  revert fuel1 fuel2 s. induction n as [|n IH]; intros fuel1 fuel2 s Hs H1 H2.
  - destruct s; [|simpl in Hs; lia]. destruct fuel1, fuel2; reflexivity.
  - destruct s as [|c r]; [destruct fuel1, fuel2; reflexivity|].
    destruct fuel1 as [|f1]; [lia|]. destruct fuel2 as [|f2]; [lia|].
    simpl. destruct (lex c r) as [t rest|] eqn:E; [|reflexivity].
    apply lex_shorter in E. simpl in Hs.
    rewrite (IH f1 f2 rest); [reflexivity|lia..].
Qed.

(** The tokenizer does not run out of fuel: with more fuel than the text is
    long the tokens are the same. *)
Lemma findall_enough_fuel fuel s :
  String.length s <= fuel -> findall fuel s = xpath_tokenizer s.
Proof.
  intros H. unfold xpath_tokenizer.
  apply (findall_fuel_irrelevant (String.length s)); lia.
Qed.

Lemma until_bracket_shorter ts body rest :
  until_bracket ts = Some (body, rest) -> length rest < length ts.
Proof.
  revert body rest. induction ts as [|t ts IH]; intros body rest; simpl; [discriminate|].
  destruct (String.eqb (fst t) "]").
  - intros [= <- <-]. lia.
  - destruct (until_bracket ts) as [[b r]|] eqn:E; [|discriminate].
    intros [= <- <-]. specialize (IH b r eq_refl). lia.
Qed.

Lemma prepare_predicate_shorter ts sel rest :
  prepare_predicate ts = Returns (sel, rest) -> length rest < length ts.
Proof.
  unfold prepare_predicate.
  destruct (until_bracket ts) as [[body r]|] eqn:E; [|discriminate].
  apply until_bracket_shorter in E.
  repeat case_match; intros Hret; simplify_eq; exact E.
Qed.

Lemma skip_slash_shorter (rest : list token) :
  length match rest with
         | [] => []
         | t' :: rest' => if String.eqb (fst t') "/" then rest' else rest
         end <= length rest.
Proof.
  destruct rest as [|t' rest']; [reflexivity|].
  destruct (String.eqb (fst t') "/"); cbn [length]; lia.
Qed.

Lemma build_fuel_irrelevant n fuel1 fuel2 ts :
  length ts <= n -> n <= fuel1 -> n <= fuel2 -> build fuel1 ts = build fuel2 ts.
Proof.
  revert fuel1 fuel2 ts. induction n as [|n IH]; intros fuel1 fuel2 ts Hs H1 H2.
  - destruct ts; [|simpl in Hs; lia]. destruct fuel1, fuel2; reflexivity.
  - destruct ts as [|t ts]; [destruct fuel1, fuel2; reflexivity|].
    destruct fuel1 as [|f1]; [lia|]. destruct fuel2 as [|f2]; [lia|].
    cbn [length] in Hs. cbn [build]. cbv zeta.
    destruct (String.eqb (fst t) "").
    + destruct (plain_name (snd t)); [|reflexivity].
      f_equal. apply IH; try lia.
      pose proof (skip_slash_shorter ts). lia.
    + destruct (String.eqb (fst t) "["); [|reflexivity].
      destruct (prepare_predicate ts) as [[sel rest]| |] eqn:E; try reflexivity.
      apply prepare_predicate_shorter in E. cbn [outcome_bind].
      f_equal. apply IH; try lia.
      pose proof (skip_slash_shorter rest). lia.
Qed.

(** Neither does the compilation of the tokens. *)
Lemma build_enough_fuel fuel ts :
  length ts <= fuel -> build fuel ts = build (length ts) ts.
Proof. intros H. apply (build_fuel_irrelevant (length ts)); lia. Qed.

End Fuel.

(** ** Construction *)

(** The constructor always returns; the two sections it keeps are the first
    child with the tag [Definitions] and the first child with the tag
    [SynsetRelations], and the instance has no [validate_relation]. *)
Lemma init_returns synset_el reltypes syn_ids s :
  Synset.__init__ synset_el reltypes syn_ids s
  = Returns {| Synset.synset_el := synset_el;
               Synset.reltypes := reltypes;
               Synset.syn_ids := syn_ids;
               Synset.defs_els := head (tree.iterchildren s synset_el "Definitions");
               Synset.refs_el := head (tree.iterchildren s synset_el "SynsetRelations");
               Synset.validate_relation := None |}.
Proof.
  unfold Synset.__init__.
  rewrite (find_child _ _ _ _ compile_Definitions).
  rewrite (find_child _ _ _ _ compile_SynsetRelations).
  reflexivity.
Qed.

Example format_synset :
  Synset.__init__ 1 Docstring.known_reltypes Docstring.known_ids Format.doc
  = Returns Format.synset.
Proof. reflexivity. Qed.

Example docstring_synset :
  Synset.__init__ 1 Docstring.known_reltypes Docstring.known_ids Docstring.doc
  = Returns Docstring.synset.
Proof. reflexivity. Qed.

(** ** [pos] *)

Lemma last_char_snoc pre c :
  Synset.last_char (pre +:+ String c "") = Some c.
Proof.
  unfold Synset.last_char.
  induction pre as [|a pre IH]; [reflexivity|].
  change (String a pre +:+ String c "") with (String a (pre +:+ String c "")).
  change (String.length (String a (pre +:+ String c "")))
    with (S (String.length (pre +:+ String c ""))).
  destruct (String.length (pre +:+ String c "")) as [|n] eqn:E.
  - destruct pre; discriminate.
  - replace (S (S n) - 1) with (S n) by lia.
    replace (S n - 1) with n in IH by lia.
    simpl. exact IH.
Qed.

Lemma string_snoc (x : string) :
  x <> "" -> exists pre c, x = pre +:+ String c "".
Proof.
  induction x as [|a x IH]; [congruence|]. intros _.
  destruct x as [|b x].
  - exists "", a. reflexivity.
  - destruct IH as (pre & c & E); [discriminate|].
    exists (String a pre), c.
    change (String a pre +:+ String c "") with (String a (pre +:+ String c "")).
    congruence.
Qed.

(** C9.  For a node whose [id] attribute is present and not empty, [pos]
    returns the last character of [id]: the identifier is some text followed
    by one character, and [pos] is that character. *)
Theorem pos_is_last_char_of_id (self : Synset.t) (s : tree.store) (x : string) :
  Synset.id self s = Some x -> x <> "" ->
  exists pre c, x = pre +:+ String c "" /\ Synset.pos self s = Returns (String c "").
Proof.
  intros Hid Hx. destruct (string_snoc x Hx) as (pre & c & E).
  exists pre, c. split; [exact E|].
  unfold Synset.pos. rewrite Hid, E, last_char_snoc. reflexivity.
Qed.

Lemma pos_is_last_char_of_id_witness :
  Synset.id Docstring.synset Docstring.doc = Some "eng-30-00324560-v"
  /\ exists pre c, "eng-30-00324560-v" = pre +:+ String c ""
       /\ Synset.pos Docstring.synset Docstring.doc = Returns (String c "").
Proof.
  split; [reflexivity|].
  apply (pos_is_last_char_of_id Docstring.synset Docstring.doc "eng-30-00324560-v");
    [reflexivity | discriminate].
Defined.

Example pos_docstring : Synset.pos Docstring.synset Docstring.doc = Returns "v".
Proof. reflexivity. Qed.

(** Without an [id] attribute, and with an empty one, [pos] raises. *)
Lemma pos_without_id self s :
  Synset.id self s = None ->
  Synset.pos self s = Raises (TypeError "'NoneType' object is not subscriptable").
Proof. intros H. unfold Synset.pos. rewrite H. reflexivity. Qed.

Lemma pos_empty_id self s :
  Synset.id self s = Some "" ->
  Synset.pos self s = Raises (IndexError "string index out of range").
Proof. intros H. unfold Synset.pos. rewrite H. reflexivity. Qed.

(** ** [glosses] *)

Lemma language_in_spec s languages d :
  tree.get s d "language" ∈ (Some <$> languages)
  <-> Spec.language_in s languages d = true.
Proof.
  unfold Spec.language_in. destruct (tree.get s d "language") as [l|].
  - rewrite existsb_exists. split.
    + intros H. apply list_elem_of_fmap in H as (l' & E & Hl').
      injection E as ->. exists l'. split.
      * apply list_elem_of_In, Hl'.
      * apply String.eqb_refl.
    + intros (l' & Hl' & E). apply String.eqb_eq in E as ->.
      apply list_elem_of_fmap. exists l'. split; [reflexivity|].
      apply list_elem_of_In, Hl'.
  - split; [|discriminate].
    intros H. apply list_elem_of_fmap in H as (l' & E & _). discriminate.
Qed.

Lemma sublist_map_filter {A B} (f : A -> B) (p : A -> bool) (l : list A) :
  sublist (map f (List.filter p l)) (map f l).
Proof.
  induction l as [|x l IH]; simpl; [constructor|].
  destruct (p x); simpl; [apply sublist_skip, IH | apply sublist_cons, IH].
Qed.

(** C7.  On a freshly constructed view of any node and for any collection of
    languages, [glosses] returns the gloss texts of the Definition elements of
    the node's Definitions section whose language is in the collection; they
    come in document order (the result is a subsequence of the glosses of all
    Definition elements); the default collection is en, nl; without a
    Definitions section the result is empty. *)
Theorem glosses_are_gloss_texts (s : tree.store) (e : tree.elem)
    (reltypes syn_ids languages : list string) :
  exists self,
    Synset.__init__ e reltypes syn_ids s = Returns self
    /\ Synset.glosses self languages s = Returns (Spec.gloss_texts s e languages)
    /\ Synset.glosses self Synset.default_languages s
       = Returns (Spec.gloss_texts s e ["en"; "nl"])
    /\ sublist (Spec.gloss_texts s e languages)
         (map (fun d => tree.get s d "gloss") (Spec.definition_elements s e))
    /\ (Spec.definitions_section s e = None ->
        Synset.glosses self languages s = Returns []).
Proof.
  eexists. split; [apply init_returns|].
  assert (G : forall ls,
    Synset.glosses
      {| Synset.synset_el := e; Synset.reltypes := reltypes;
         Synset.syn_ids := syn_ids;
         Synset.defs_els := head (tree.iterchildren s e "Definitions");
         Synset.refs_el := head (tree.iterchildren s e "SynsetRelations");
         Synset.validate_relation := None |} ls s
    = Returns (Spec.gloss_texts s e ls)).
  { intros ls. unfold Synset.glosses, Spec.gloss_texts, Spec.definition_elements,
      Spec.definitions_section. cbn [Synset.defs_els].
    destruct (head (tree.iterchildren s e "Definitions")) as [defs|]; [|reflexivity].
    rewrite (iterfind_child _ _ _ _ compile_Definition). cbn [outcome_bind].
    rewrite (filter_bool _ (Spec.language_in s ls)); [reflexivity|].
    intros d. apply language_in_spec. }
  split; [apply G|]. split; [apply G|]. split.
  - apply sublist_map_filter.
  - intros Hnone. rewrite G. unfold Spec.gloss_texts, Spec.definition_elements.
    rewrite Hnone. reflexivity.
Qed.

Lemma glosses_are_gloss_texts_witness :
  Spec.definitions_section Docstring.doc 1 = None
  /\ Synset.glosses Docstring.synset ["en"; "nl"] Docstring.doc = Returns [].
Proof.
  split; [reflexivity|].
  destruct (glosses_are_gloss_texts Docstring.doc 1 Docstring.known_reltypes
              Docstring.known_ids ["en"; "nl"]) as (self & Hinit & _ & _ & _ & Hnone).
  rewrite docstring_synset in Hinit. injection Hinit as <-.
  apply Hnone. reflexivity.
Defined.

Example glosses_default_format :
  Synset.glosses Format.synset Synset.default_languages Format.doc
  = Returns [Some "cook with dry heat, usually in an oven";
             Some "in een oven bereiden"].
Proof. reflexivity. Qed.

Example glosses_fr_format :
  Synset.glosses Format.synset ["fr"] Format.doc = Returns [Some "cuire au four"].
Proof. reflexivity. Qed.

(** The element of the class docstring has its definition directly below the
    synset, without a Definitions section: [glosses] finds nothing. *)
Example glosses_docstring :
  Synset.glosses Docstring.synset Synset.default_languages Docstring.doc = Returns [].
Proof. reflexivity. Qed.

(** ** [all_relations] and [relations] *)

(** [all_relations] yields one [Relation] per relation element, in document
    order, on every call. *)
Lemma all_relations_in_document_order self s :
  Synset.all_relations self s
  = Returns (map Relation.make (Spec.relation_elements s (Synset.synset_el self))).
Proof.
  unfold Synset.all_relations. rewrite iterfind_path_to_rels. reflexivity.
Qed.

Section InterpolatedQuery.

Import ElementPath.

Lemma upto_app q t rest :
  mem_char q t = false -> upto q (t +:+ String q rest) = Some (t, rest).
Proof.
  induction t as [|c t IH]; simpl.
  - intros _. rewrite Ascii.eqb_refl. reflexivity.
  - unfold mem_char. simpl. intros H. apply orb_false_elim in H as [Hc Ht].
    rewrite Ascii.eqb_sym, Hc. fold (mem_char q t) in Ht.
    rewrite (IH Ht). reflexivity.
Qed.

Lemma findall_empty fuel : findall fuel "" = Some [].
Proof. destruct fuel; reflexivity. Qed.

(** The fixed part of the query ends with [=], a token of its own: its tokens
    do not depend on what is interpolated after it. *)
Lemma findall_query_prefix fuel rest :
  findall (S (S (S (S (S (S (S fuel)))))))
    ("SynsetRelations/SynsetRelation[@relType=" +:+ rest)
  = cons ("", "SynsetRelations") <$> (cons ("/", "") <$>
     (cons ("", "SynsetRelation") <$> (cons ("[", "") <$> (cons ("@", "") <$>
      (cons ("", "relType") <$> (cons ("=", "") <$> findall fuel rest)))))).
Proof. reflexivity. Qed.

Lemma findall_quoted fuel t :
  mem_char dquote t = false ->
  findall (S (S fuel)) (String dquote (t +:+ String dquote "]"))
  = Some [(String dquote (t +:+ String dquote ""), ""); ("]", "")].
Proof.
  intros Ht.
  change (findall (S (S fuel)) (String dquote (t +:+ String dquote "]")))
    with (match lex_quoted dquote (t +:+ String dquote "]") with
          | Lex t rest => cons t <$> findall (S fuel) rest
          | LexBeyond => None
          end).
  unfold lex_quoted. rewrite (upto_app _ _ _ Ht).
  change (findall (S fuel) "]") with (cons ("]", "") <$> findall fuel "").
  rewrite findall_empty. reflexivity.
Qed.

Lemma length_append (a b : string) :
  String.length (a +:+ b) = String.length a + String.length b.
Proof.
  induction a as [|c a IH]; [reflexivity|].
  change (String c a +:+ b) with (String c (a +:+ b)).
  cbn [String.length]. rewrite IH. reflexivity.
Qed.

Lemma append_assoc (a b c : string) : (a +:+ b) +:+ c = a +:+ (b +:+ c).
Proof.
  induction a as [|x a IH]; [reflexivity|].
  change (String x a +:+ b) with (String x (a +:+ b)).
  change (String x (a +:+ b) +:+ c) with (String x ((a +:+ b) +:+ c)).
  rewrite IH. reflexivity.
Qed.

Lemma xpath_tokenizer_xml_query t :
  mem_char dquote t = false ->
  xpath_tokenizer (Synset.xml_query t)
  = Some [("", "SynsetRelations"); ("/", ""); ("", "SynsetRelation");
          ("[", ""); ("@", ""); ("", "relType"); ("=", "");
          (String dquote (t +:+ String dquote ""), ""); ("]", "")].
Proof.
  intros Ht. unfold xpath_tokenizer, Synset.xml_query.
  rewrite length_append.
  change (String.length "SynsetRelations/SynsetRelation[@relType=") with 40.
  change (String.length (String dquote (t +:+ String dquote "]")))
    with (S (String.length (t +:+ String dquote "]"))).
  rewrite length_append.
  change (String.length (String dquote "]")) with 2.
  replace (40 + S (String.length t + 2))
    with (S (S (S (S (S (S (S (S (S (34 + String.length t)))))))))) by lia.
  rewrite findall_query_prefix, (findall_quoted _ _ Ht). reflexivity.
Qed.

Lemma substring_prefix (a b : string) :
  String.substring 0 (String.length a) (a +:+ b) = a.
Proof.
  induction a as [|c a IH]; [destruct b; reflexivity|].
  change (String c a +:+ b) with (String c (a +:+ b)).
  cbn [String.length String.substring]. rewrite IH. reflexivity.
Qed.

Lemma strip_quotes_quoted q t :
  strip_quotes (String q (t +:+ String q "")) = t.
Proof.
  unfold strip_quotes. rewrite length_append.
  replace (String.length t + String.length (String q "") - 1)
    with (String.length t) by (cbn [String.length]; lia).
  apply substring_prefix.
Qed.

Lemma ends_with_snoc c a d : ends_with c (a +:+ String d "") = Ascii.eqb c d.
Proof.
  unfold ends_with. rewrite length_append. cbn [String.length].
  replace (String.length a + 1) with (S (String.length a)) by lia.
  induction a as [|x a IH]; [reflexivity|].
  change (String x a +:+ String d "") with (String x (a +:+ String d "")).
  cbn [String.length String.get]. exact IH.
Qed.

Lemma ends_with_xml_query t : ends_with "/" (Synset.xml_query t) = false.
Proof.
  unfold Synset.xml_query.
  replace ("SynsetRelations/SynsetRelation[@relType="
           +:+ String dquote (t +:+ String dquote "]"))
    with (("SynsetRelations/SynsetRelation[@relType="
           +:+ String dquote (t +:+ String dquote "")) +:+ String "]" "").
  - apply ends_with_snoc.
  - rewrite append_assoc. f_equal.
    change (String dquote (t +:+ String dquote "") +:+ "]")
      with (String dquote ((t +:+ String dquote "") +:+ "]")).
    rewrite append_assoc. reflexivity.
Qed.

(** With a relation type free of double quotes, the query is the path to the
    relation elements followed by the test of the attribute [relType]. *)
Lemma compile_xml_query t :
  mem_char dquote t = false ->
  compile (Synset.xml_query t)
  = Returns [child "SynsetRelations"; child "SynsetRelation";
             attr_equals "relType" t].
Proof.
  intros Ht. unfold compile.
  change (starts_with "/" (Synset.xml_query t)) with false.
  rewrite ends_with_xml_query, (xpath_tokenizer_xml_query _ Ht).
  cbn -[String.append strip_quotes].
  rewrite strip_quotes_quoted. reflexivity.
Qed.

End InterpolatedQuery.

Lemma of_type_make s t (els : list tree.elem) :
  map Relation.make (filter (fun e => tree.get s e "relType" = Some t) els)
  = Spec.of_type s t (map Relation.make els).
Proof.
  unfold Spec.of_type. induction els as [|e els IH]; [reflexivity|].
  rewrite filter_cons. simpl. unfold Relation.get_reltype at 1. simpl.
  unfold etree.get. destruct (tree.get s e "relType") as [t'|] eqn:E.
  - destruct (decide (Some t' = Some t)) as [Ht|Ht].
    + injection Ht as ->. rewrite String.eqb_refl. simpl. rewrite IH. reflexivity.
    + destruct (String.eqb t' t) eqn:E'; [|exact IH].
      apply String.eqb_eq in E'. congruence.
  - destruct (decide (None = Some t)); [discriminate|exact IH].
Qed.

(** X5.  For a relation type without a double quote, [relations] returns the
    relations of [all_relations] that have this type, in the same order. *)
Lemma relations_of_type self s t :
  ElementPath.mem_char ElementPath.dquote t = false ->
  exists rels,
    Synset.all_relations self s = Returns rels
    /\ Synset.relations self t s = Returns (Spec.of_type s t rels).
Proof.
  intros Ht. eexists. split; [apply all_relations_in_document_order|].
  unfold Synset.relations, etree.iterfind, ElementPath.iterfind.
  rewrite (compile_xml_query _ Ht). cbn [outcome_bind].
  unfold ElementPath.run. cbn [fold_left ElementPath.select flat_map].
  rewrite app_nil_r. rewrite of_type_make. reflexivity.
Qed.

Example relations_has_hyperonym :
  Synset.relations Docstring.synset "has_hyperonym" Docstring.doc
  = Returns [Relation.make 4]
  /\ Relation.get_target (Relation.make 4) Docstring.doc = Some "eng-30-00322847-v".
Proof. split; reflexivity. Qed.

(** C8.  A relation type that is present on a node and contains a double
    quote: [all_relations] lists the relation of that type, and [relations]
    with that type raises SyntaxError, because the type is pasted into the
    query between double quotes. *)
Theorem relations_quote_in_type :
  Synset.__init__ 1 (Synset.reltypes Quoted.synset) (Synset.syn_ids Quoted.synset)
    Quoted.doc = Returns Quoted.synset
  /\ Synset.all_relations Quoted.synset Quoted.doc
     = Returns [Relation.make 3; Relation.make 4; Relation.make 5]
  /\ Spec.of_type Quoted.doc Quoted.quoted_type
       [Relation.make 3; Relation.make 4; Relation.make 5] = [Relation.make 3]
  /\ Synset.relations Quoted.synset Quoted.quoted_type Quoted.doc
     = Raises (SyntaxError "invalid predicate").
Proof. repeat split; vm_compute; reflexivity. Qed.

(** A type that closes the quote and the bracket and opens a second predicate
    makes [relations] return a relation of another type. *)
Example relations_quote_selects_other :
  Spec.of_type Quoted.doc Quoted.injected_type
    [Relation.make 3; Relation.make 4; Relation.make 5] = [Relation.make 5]
  /\ Synset.relations Quoted.synset Quoted.injected_type Quoted.doc
     = Returns [Relation.make 4]
  /\ Relation.get_reltype (Relation.make 4) Quoted.doc = Some "a".
Proof. repeat split; vm_compute; reflexivity. Qed.

(** ** [add_relation] on an instance of the class *)

(** C4.  On any instance that the constructor builds, and for any relation
    type and target, [add_relation] raises AttributeError at the call of
    [validate_relation], a method the class does not have: the duplicate check
    is not reached and the tree is left as it was. *)
Theorem add_relation_has_no_validate_relation (s : tree.store) (e : tree.elem)
    (reltypes syn_ids : list string) (reltype target : string) :
  exists self,
    Synset.__init__ e reltypes syn_ids s = Returns self
    /\ Synset.add_relation self reltype target s
       = (Raises (AttributeError
                    "'Synset' object has no attribute 'validate_relation'"), s).
Proof.
  eexists. split; [apply init_returns|]. reflexivity.
Qed.

(** [add_relation] hands back [None] or raises; it never hands back the tuple
    its docstring announces. *)
Lemma add_relation_never_a_tuple self reltype target s succes message :
  fst (Synset.add_relation self reltype target s) <> Returns (PyTuple succes message).
Proof.
  unfold Synset.add_relation, Synset.call_validate_relation, bind, reading,
    ret, raise, etree.SubElement, etree.attach, etree.append.
  repeat (case_match; simplify_eq/=; try discriminate).
Qed.

(** X7.  When the call of [validate_relation] returns, a pair that is already
    among the relations of the node is refused with ValueError and the tree is
    left as it was. *)
Lemma add_relation_duplicate self v reltype target s rels :
  Synset.validate_relation self = Some v ->
  v (Synset.id self s) reltype target = None ->
  Synset.all_relations self s = Returns rels ->
  (Some reltype, Some target) ∈ Spec.content s rels ->
  Synset.add_relation self reltype target s
  = (Raises (ValueError "relation already exists"), s).
Proof.
  intros Hv Hok Hrels Hin.
  unfold Synset.add_relation, Synset.call_validate_relation, bind, reading, ret, raise.
  rewrite Hv, Hok, Hrels. cbn [outcome_bind].
  fold (Spec.content s rels).
  destruct (decide ((Some reltype, Some target) ∈ Spec.content s rels));
    [reflexivity | contradiction].
Qed.

(** X6.  When the call of [validate_relation] raises, that exception is what
    [add_relation] raises, also for a pair that is already present, and the
    tree is left as it was. *)
Lemma add_relation_validation_first self v reltype target s err :
  Synset.validate_relation self = Some v ->
  v (Synset.id self s) reltype target = Some err ->
  Synset.add_relation self reltype target s = (Raises err, s).
Proof.
  intros Hv Herr.
  unfold Synset.add_relation, Synset.call_validate_relation, bind, reading, ret, raise.
  rewrite Hv, Herr. reflexivity.
Qed.

(** C2.  The pair (has_hyperonym, eng-30-00322847-v) is among the relations
    of the docstring node; [add_relation] with that pair does not get to the
    duplicate check: it raises the AttributeError of the missing
    [validate_relation], not the error for a duplicate.  The tree is
    unchanged. *)
Theorem add_relation_existing_pair :
  Synset.all_relations Docstring.synset Docstring.doc
  = Returns [Relation.make 4; Relation.make 5]
  /\ (Some "has_hyperonym", Some "eng-30-00322847-v")
       ∈ Spec.content Docstring.doc [Relation.make 4; Relation.make 5]
  /\ Synset.add_relation Docstring.synset "has_hyperonym" "eng-30-00322847-v"
       Docstring.doc
     = (Raises (AttributeError
                  "'Synset' object has no attribute 'validate_relation'"),
        Docstring.doc).
Proof.
  split; [reflexivity|]. split; [|reflexivity].
  vm_compute. left.
Qed.

(** With a [validate_relation] supplied from outside, the same call is refused
    as a duplicate. *)
Example add_relation_existing_pair_validated :
  Synset.add_relation
    (Synset.with_validate_relation
       (Spec.validate_relation Docstring.known_reltypes Docstring.known_ids)
       Docstring.synset)
    "has_hyperonym" "eng-30-00322847-v" Docstring.doc
  = (Raises (ValueError "relation already exists"), Docstring.doc).
Proof. vm_compute. reflexivity. Qed.

(** C3.  The type has_meronym is not in the vocabulary the docstring node was
    constructed with; the validation routine of the specification answers
    InvalidRelationType; [add_relation] raises the AttributeError of the
    missing [validate_relation] instead, as it does for every other type.  The
    tree is unchanged. *)
Theorem add_relation_unknown_type :
  ("has_meronym" ∉ Synset.reltypes Docstring.synset)
  /\ Spec.validate_relation (Synset.reltypes Docstring.synset)
       (Synset.syn_ids Docstring.synset)
       (Synset.id Docstring.synset Docstring.doc) "has_meronym" "eng-30-00322847-v"
     = Some (OtherError "InvalidRelationType" "has_meronym")
  /\ Synset.add_relation Docstring.synset "has_meronym" "eng-30-00322847-v"
       Docstring.doc
     = (Raises (AttributeError
                  "'Synset' object has no attribute 'validate_relation'"),
        Docstring.doc).
Proof.
  split; [|split; reflexivity].
  intros H. apply list_elem_of_In in H. simpl in H.
  destruct H as [H|[H|[]]]; discriminate.
Qed.

(** C6.  A valid pair that is not yet among the relations of the docstring
    node: [add_relation] raises; and where a [validate_relation] is supplied
    from outside and accepts the pair, [add_relation] runs to its end and
    hands back [None], not a pair of a success flag and a message. *)
Theorem add_relation_returns_none :
  Synset.add_relation Docstring.synset "has_hyperonym" "eng-30-00325085-v"
    Docstring.doc
  = (Raises (AttributeError
               "'Synset' object has no attribute 'validate_relation'"),
     Docstring.doc)
  /\ fst (Synset.add_relation
            (Synset.with_validate_relation
               (Spec.validate_relation Docstring.known_reltypes Docstring.known_ids)
               Docstring.synset)
            "has_hyperonym" "eng-30-00325085-v" Docstring.doc)
     = Returns PyNone.
Proof. split; vm_compute; reflexivity. Qed.

(** ** [remove] *)

Lemma children_of_unlink s e p :
  tree.getparent s e = Some p ->
  tree.children_of (etree.unlink e s) p
  = filter (fun x => x <> e) (tree.children_of s p).
Proof.
  intros Hp. unfold etree.unlink. rewrite Hp. unfold tree.children_of.
  rewrite !list_lookup_alter.
  repeat case_decide; subst; try congruence; destruct (s !! p); reflexivity.
Qed.

Lemma getparent_unlink s e p :
  tree.getparent s e = Some p -> tree.getparent (etree.unlink e s) e = None.
Proof.
  intros Hp. unfold etree.unlink. rewrite Hp. unfold tree.getparent in *.
  rewrite !list_lookup_alter.
  repeat case_decide; subst; try congruence;
    destruct (s !! e); try discriminate; reflexivity.
Qed.

(** C5, as the code has it.  A node without parent: [remove] raises
    AttributeError, [getparent] having answered [None], and the tree is left
    as it was.  A node with a parent: [remove] returns, the element is no
    longer among the children of its former parent, whose other children keep
    their order, the element has no parent any more, and a second [remove]
    raises that AttributeError. *)
Theorem remove_detaches (self : Synset.t) (s : tree.store) :
  (etree.getparent s (Synset.synset_el self) = None ->
   Synset.remove self s
   = (Raises (AttributeError "'NoneType' object has no attribute 'remove'"), s))
  /\ (forall p, etree.getparent s (Synset.synset_el self) = Some p ->
      exists s',
        Synset.remove self s = (Returns tt, s')
        /\ tree.children_of s' p
           = filter (fun x => x <> Synset.synset_el self) (tree.children_of s p)
        /\ (Synset.synset_el self ∉ tree.children_of s' p)
        /\ etree.getparent s' (Synset.synset_el self) = None
        /\ Synset.remove self s'
           = (Raises (AttributeError "'NoneType' object has no attribute 'remove'"),
              s')).
Proof.
  split.
  - intros Hnone. unfold Synset.remove. rewrite Hnone. reflexivity.
  - intros p Hp. exists (etree.unlink (Synset.synset_el self) s).
    assert (Hgone : etree.getparent (etree.unlink (Synset.synset_el self) s)
                      (Synset.synset_el self) = None)
      by (apply (getparent_unlink _ _ p), Hp).
    split; [|split; [|split; [|split]]].
    + unfold Synset.remove, etree.remove. rewrite Hp.
      change (tree.getparent s (Synset.synset_el self)) with
        (etree.getparent s (Synset.synset_el self)).
      rewrite Hp. rewrite decide_True by reflexivity. reflexivity.
    + apply children_of_unlink, Hp.
    + rewrite (children_of_unlink _ _ _ Hp). intros Hin.
      apply list_elem_of_filter in Hin as [Hne _]. apply Hne. reflexivity.
    + exact Hgone.
    + unfold Synset.remove. rewrite Hgone. reflexivity.
Qed.

Lemma remove_detaches_witness :
  etree.getparent Docstring.doc (Synset.synset_el Docstring.synset) = Some 0
  /\ exists s',
       Synset.remove Docstring.synset Docstring.doc = (Returns tt, s')
       /\ tree.children_of s' 0 = []
       /\ Synset.remove Docstring.synset s'
          = (Raises (AttributeError "'NoneType' object has no attribute 'remove'"),
             s').
Proof.
  split; [reflexivity|].
  destruct (remove_detaches Docstring.synset Docstring.doc) as [_ H].
  destruct (H 0 eq_refl) as (s' & Hr & Hc & _ & _ & H2).
  exists s'. split; [exact Hr|]. split; [|exact H2].
  rewrite Hc. reflexivity.
Defined.

(** The second [remove] on the docstring node fails, and what it raises is an
    AttributeError: the module has no error class of its own for a node
    without parent. *)
Lemma remove_twice_not_detached_node_error :
  fst (Synset.remove Docstring.synset Docstring.doc) = Returns tt
  /\ fst (Synset.remove Docstring.synset
            (snd (Synset.remove Docstring.synset Docstring.doc)))
     = Raises (AttributeError "'NoneType' object has no attribute 'remove'")
  /\ ~ exists msg,
        fst (Synset.remove Docstring.synset
               (snd (Synset.remove Docstring.synset Docstring.doc)))
        = Raises (OtherError "DetachedNodeError" msg).
Proof.
  split; [reflexivity|]. split; [reflexivity|].
  intros [msg H]. vm_compute in H. discriminate.
Qed.

(** The root of a document has no parent either. *)
Example remove_root :
  Synset.remove
    {| Synset.synset_el := 0; Synset.reltypes := []; Synset.syn_ids := [];
       Synset.defs_els := None; Synset.refs_el := None;
       Synset.validate_relation := None |} Docstring.doc
  = (Raises (AttributeError "'NoneType' object has no attribute 'remove'"),
     Docstring.doc).
Proof. reflexivity. Qed.

(** ** [add_relation] past the validation *)

Lemma closed_node s i n :
  tree.closed s -> s !! i = Some n ->
  (forall c, c ∈ tree.children n -> c < length s)
  /\ (forall p, tree.parent n = Some p -> p < length s).
Proof.
  unfold tree.closed, tree.closedb. rewrite forallb_forall. intros Hs Hn.
  apply list_elem_of_lookup_2, list_elem_of_In, Hs in Hn.
  apply andb_prop in Hn as [Hc Hp]. split.
  - intros c Hin. rewrite forallb_forall in Hc.
    apply Nat.ltb_lt, Hc, list_elem_of_In, Hin.
  - intros p E. rewrite E in Hp. apply Nat.ltb_lt, Hp.
Qed.

Lemma filter_ne_fresh (l : list nat) c :
  (forall x, x ∈ l -> x < c) -> filter (fun x => x <> c) l = l.
Proof.
  induction l as [|x l IH]; intros H; [reflexivity|].
  rewrite filter_cons. rewrite decide_True.
  - rewrite IH; [reflexivity|]. intros y Hy. apply H. right. exact Hy.
  - specialize (H x ltac:(left)). lia.
Qed.

Lemma not_ancestor_of_old fuel s c x :
  (forall y q, y < c -> tree.getparent s y = Some q -> q < c) -> x < c ->
  etree.is_ancestor_or_same fuel s c x = false.
Proof.
  intros Hs. revert x. induction fuel as [|fuel IH]; intros x Hx; simpl.
  - destruct (Nat.eqb_spec c x); [lia|reflexivity].
  - destruct (Nat.eqb_spec c x); [lia|].
    destruct (tree.getparent s x) as [q|] eqn:E; [|reflexivity].
    apply IH. apply (Hs x q Hx E).
Qed.

Lemma SubElement_container p s :
  etree.SubElement p "SynsetRelations" [] s = etree.attach p "SynsetRelations" [] s.
Proof. reflexivity. Qed.

Lemma SubElement_relation p reltype target s :
  etree.xml_compatible reltype = true -> etree.xml_compatible target = true ->
  etree.SubElement p "SynsetRelation"
    [("provenance", "odwn"); ("relType", reltype); ("target", target)] s
  = etree.attach p "SynsetRelation"
      [("provenance", "odwn"); ("relType", reltype); ("target", target)] s.
Proof.
  intros Hrt Htg. unfold etree.SubElement. cbn [forallb fst snd].
  rewrite Hrt, Htg. reflexivity.
Qed.

Lemma getparent_SubElement_old s p tag attrib y :
  y < length s ->
  tree.getparent (snd (etree.attach p tag attrib s)) y = tree.getparent s y.
Proof.
  intros Hy. unfold etree.attach, tree.getparent. cbn [snd].
  rewrite list_lookup_alter. case_decide; subst.
  - rewrite lookup_app_l by exact Hy. destruct (s !! y); reflexivity.
  - rewrite lookup_app_l by exact Hy. reflexivity.
Qed.

Lemma append_new_last_child s e n tag attrib :
  tree.closed s -> s !! e = Some n ->
  etree.append e (length s) (snd (etree.attach e tag attrib s))
  = (Returns tt, snd (etree.attach e tag attrib s)).
Proof.
  intros Hs Hn. pose proof (lookup_lt_Some _ _ _ Hn) as He.
  destruct (closed_node _ _ _ Hs Hn) as [Hch _].
  unfold etree.append.
  rewrite not_ancestor_of_old; [|intros y q Hy Hq|exact He].
  2:{ rewrite getparent_SubElement_old in Hq by exact Hy.
      unfold tree.getparent in Hq. destruct (s !! y) as [m|] eqn:Em; [|discriminate].
      apply (closed_node _ _ _ Hs Em). exact Hq. }
  f_equal. unfold etree.link, etree.unlink, etree.attach, tree.getparent. cbn [snd].
  rewrite list_lookup_alter_ne by lia.
  rewrite list_lookup_middle by reflexivity. cbn [tree.parent].
  apply list_eq. intros i. rewrite !list_lookup_alter.
  repeat case_decide; subst; try lia; try reflexivity.
  - rewrite list_lookup_middle by reflexivity. reflexivity.
  - rewrite lookup_app_l by exact He. rewrite Hn. cbn [fmap option_fmap option_map].
    unfold tree.add_child, tree.drop_child. cbn [tree.children tree.tag tree.attrib tree.parent].
    rewrite filter_app, (filter_ne_fresh _ _ Hch).
    rewrite filter_cons, decide_False by (intros Hx; apply Hx; reflexivity).
    rewrite filter_nil, app_nil_r. reflexivity.
Qed.

Lemma relation_elements_without_container s e :
  tree.iterchildren s e "SynsetRelations" = [] -> Spec.relation_elements s e = [].
Proof. intros H. unfold Spec.relation_elements. rewrite H. reflexivity. Qed.

(** C10, as the code has it.  A node without [SynsetRelations] child, in a
    tree without dangling references, a [validate_relation] that returns for
    the pair, and a type and a target that lxml takes as attribute values: the
    constructor keeps [None] as [refs_el]; the pair cannot be a duplicate, the
    node having no relation; [add_relation] raises the AttributeError of
    [append] on [None]; and the tree it leaves behind is the tree before the
    call with two new elements, an empty [SynsetRelations] and the
    [SynsetRelation] for the pair, both appended to the children of the
    [Synset] element and both with that element as parent. *)
Theorem add_relation_without_container_fails (s : tree.store) (e : tree.elem)
    (n : tree.node) (reltypes syn_ids : list string) (v : Synset.validator)
    (reltype target : string) :
  tree.closed s -> s !! e = Some n ->
  tree.iterchildren s e "SynsetRelations" = [] ->
  v (etree.get s e "id") reltype target = None ->
  etree.xml_compatible reltype = true -> etree.xml_compatible target = true ->
  exists self,
    Synset.__init__ e reltypes syn_ids s = Returns self
    /\ Synset.refs_el self = None
    /\ Synset.add_relation (Synset.with_validate_relation v self) reltype target s
       = (Raises (AttributeError "'NoneType' object has no attribute 'append'"),
          <[e := tree.Node (tree.tag n) (tree.attrib n)
                   (tree.children n ++ [length s; S (length s)]) (tree.parent n)]>
            (s ++ [tree.Node "SynsetRelations" [] [] (Some e);
                   tree.Node "SynsetRelation"
                     [("provenance", "odwn"); ("relType", reltype);
                      ("target", target)] [] (Some e)])).
Proof.
  intros Hs Hn Hnone Hok Hrt Htg. pose proof (lookup_lt_Some _ _ _ Hn) as He.
  eexists. split; [apply init_returns|]. rewrite Hnone. split; [reflexivity|].
  unfold Synset.add_relation, Synset.call_validate_relation, bind, reading, ret, raise.
  cbn [Synset.with_validate_relation Synset.validate_relation Synset.refs_el
       Synset.synset_el Synset.id head].
  unfold Synset.id. cbn [Synset.with_validate_relation Synset.synset_el].
  rewrite Hok, all_relations_in_document_order.
  cbn [Synset.with_validate_relation Synset.synset_el outcome_bind].
  rewrite (relation_elements_without_container _ _ Hnone). cbn [map].
  rewrite decide_False by (intros H; inversion H).
  rewrite SubElement_container.
  destruct (etree.attach e "SynsetRelations" [] s) as [o s1] eqn:E1.
  pose proof (append_new_last_child s e n "SynsetRelations" [] Hs Hn) as Happ.
  rewrite E1 in Happ. cbn [snd] in Happ.
  unfold etree.attach in E1. injection E1 as <- <-.
  rewrite Happ.
  rewrite (SubElement_relation _ _ _ _ Hrt Htg).
  unfold etree.attach. f_equal.
  rewrite length_alter, length_app. cbn [length].
  replace (length s + 1) with (S (length s)) by lia.
  rewrite alter_app_l by (rewrite length_alter, length_app; cbn [length]; lia).
  rewrite list_alter_alter_eq, alter_app_l by lia.
  rewrite <- app_assoc. cbn [app].
  rewrite list_insert_alter, alter_app_l by lia. f_equal.
  apply list_alter_ext; [|reflexivity]. intros x Hx.
  rewrite Hn in Hx. injection Hx as <-.
  unfold compose, tree.add_child. cbn [tree.children tree.tag tree.attrib tree.parent].
  rewrite <- app_assoc. reflexivity.
Qed.


Lemma add_relation_without_container_fails_witness :
  tree.closed Bare.doc
  /\ exists self,
       Synset.__init__ 1 Docstring.known_reltypes Docstring.known_ids Bare.doc
       = Returns self
       /\ Synset.add_relation
            (Synset.with_validate_relation
               (Spec.validate_relation Docstring.known_reltypes Docstring.known_ids)
               self)
            "has_hyperonym" "eng-30-00322847-v" Bare.doc
          = (Raises (AttributeError "'NoneType' object has no attribute 'append'"),
             [ tree.Node "Lexicon" [] [1] None;
               tree.Node "Synset"
                 [("id", "eng-30-00324560-v"); ("ili", "i23355")] [2; 3] (Some 0);
               tree.Node "SynsetRelations" [] [] (Some 1);
               tree.Node "SynsetRelation"
                 [("provenance", "odwn"); ("relType", "has_hyperonym");
                  ("target", "eng-30-00322847-v")] [] (Some 1) ]).
Proof.
  split; [reflexivity|].
  destruct (add_relation_without_container_fails Bare.doc 1
              (tree.Node "Synset" [("id", "eng-30-00324560-v"); ("ili", "i23355")]
                 [] (Some 0))
              Docstring.known_reltypes Docstring.known_ids
              (Spec.validate_relation Docstring.known_reltypes Docstring.known_ids)
              "has_hyperonym" "eng-30-00322847-v")
    as (self & Hinit & _ & Hadd); try reflexivity.
  exists self. split; [exact Hinit|]. exact Hadd.
Defined.

(** The claim at a type that holds a control character, on the node without
    relations container and with a [validate_relation] that knows the type:
    the pair is accepted and is no duplicate, the call fails with the
    ValueError of lxml for such a string, not with AttributeError, and of the
    two elements only the empty container is attached. *)
Lemma add_relation_without_container_control_character :
  Synset.__init__ 1 [Control.control_type] Docstring.known_ids Bare.doc
  = Returns Control.bare_synset
  /\ Spec.validate_relation [Control.control_type] Docstring.known_ids
       (Synset.id Control.bare_synset Bare.doc)
       Control.control_type "eng-30-00322847-v" = None
  /\ Synset.all_relations Control.bare_synset Bare.doc = Returns []
  /\ Synset.add_relation
       (Synset.with_validate_relation
          (Spec.validate_relation [Control.control_type] Docstring.known_ids)
          Control.bare_synset)
       Control.control_type "eng-30-00322847-v" Bare.doc
     = (Raises etree.not_xml_compatible,
        [ tree.Node "Lexicon" [] [1] None;
          tree.Node "Synset"
            [("id", "eng-30-00324560-v"); ("ili", "i23355")] [2] (Some 0);
          tree.Node "SynsetRelations" [] [] (Some 1) ])
  /\ ~ exists s',
        Synset.add_relation
          (Synset.with_validate_relation
             (Spec.validate_relation [Control.control_type] Docstring.known_ids)
             Control.bare_synset)
          Control.control_type "eng-30-00322847-v" Bare.doc
        = (Raises (AttributeError "'NoneType' object has no attribute 'append'"),
           s').
Proof.
  split; [reflexivity|]. split; [reflexivity|]. split; [reflexivity|].
  split; [vm_compute; reflexivity|].
  intros [s' H]. vm_compute in H. discriminate.
Qed.

(** C1.  The node without relations container, a known type and a known
    target that are not yet related to it.  [add_relation] raises on the
    instance as constructed; with a [validate_relation] supplied from outside
    that accepts the pair it raises as well, after it has attached a new
    container and the new relation element to the [Synset] element: the new
    element is not under the container, and [all_relations], on the old view
    and on a fresh one, does not list the pair. *)
Theorem add_relation_without_container_adds_nothing :
  Synset.__init__ 1 Docstring.known_reltypes Docstring.known_ids Bare.doc
  = Returns Bare.synset
  /\ Synset.add_relation Bare.synset "has_hyperonym" "eng-30-00322847-v" Bare.doc
     = (Raises (AttributeError
                  "'Synset' object has no attribute 'validate_relation'"),
        Bare.doc)
  /\ exists s',
       Synset.add_relation
         (Synset.with_validate_relation
            (Spec.validate_relation Docstring.known_reltypes Docstring.known_ids)
            Bare.synset)
         "has_hyperonym" "eng-30-00322847-v" Bare.doc
       = (Raises (AttributeError "'NoneType' object has no attribute 'append'"), s')
       /\ tree.children_of s' 1 = [2; 3]
       /\ tree.tag_of s' 2 = Some "SynsetRelations"
       /\ tree.children_of s' 2 = []
       /\ tree.tag_of s' 3 = Some "SynsetRelation"
       /\ Synset.all_relations Bare.synset s' = Returns []
       /\ exists fresh,
            Synset.__init__ 1 Docstring.known_reltypes Docstring.known_ids s'
            = Returns fresh
            /\ Synset.all_relations fresh s' = Returns [].
Proof.
  split; [reflexivity|]. split; [reflexivity|].
  eexists. split; [vm_compute; reflexivity|].
  repeat split; try reflexivity.
  eexists. split; reflexivity.
Qed.

(** ** [add_relation] on a node with a relations container *)

Lemma append_new_to_container s e n r tag attrib :
  tree.closed s -> s !! e = Some n -> r < length s ->
  etree.append r (length s) (snd (etree.attach e tag attrib s))
  = (Returns tt,
     alter (tree.add_child (length s)) r (s ++ [tree.Node tag attrib [] (Some r)])).
Proof.
  intros Hs Hn Hr. pose proof (lookup_lt_Some _ _ _ Hn) as He.
  destruct (closed_node _ _ _ Hs Hn) as [Hch _].
  unfold etree.append.
  rewrite not_ancestor_of_old; [|intros y q Hy Hq|exact Hr].
  2:{ rewrite getparent_SubElement_old in Hq by exact Hy.
      unfold tree.getparent in Hq. destruct (s !! y) as [m|] eqn:Em; [|discriminate].
      apply (closed_node _ _ _ Hs Em). exact Hq. }
  f_equal. unfold etree.link, etree.unlink, etree.attach, tree.getparent. cbn [snd].
  rewrite list_lookup_alter_ne by lia.
  rewrite list_lookup_middle by reflexivity. cbn [tree.parent].
  apply list_eq. intros i. rewrite !list_lookup_alter.
  repeat case_decide; subst; try lia; try reflexivity;
    rewrite ?list_lookup_middle by reflexivity;
    rewrite ?lookup_app_l by lia; rewrite ?Hn;
    cbn [fmap option_fmap option_map];
    unfold tree.add_child, tree.drop_child, tree.set_parent;
    cbn [tree.children tree.tag tree.attrib tree.parent];
    rewrite ?filter_app, ?(filter_ne_fresh _ _ Hch);
    rewrite ?filter_cons, ?decide_False by (intros Hx; apply Hx; reflexivity);
    rewrite ?filter_nil, ?app_nil_r; try reflexivity.
  - destruct n; reflexivity.
  - destruct (decide (i < length s)).
    + rewrite !lookup_app_l by lia. reflexivity.
    + rewrite !lookup_ge_None_2 by (rewrite length_app; cbn [length]; lia).
      reflexivity.
Qed.

Lemma tag_of_grown s r c N i :
  i < length s ->
  tree.tag_of (alter (tree.add_child c) r (s ++ [N])) i = tree.tag_of s i.
Proof.
  intros Hi. unfold tree.tag_of. rewrite list_lookup_alter.
  case_decide; subst; rewrite lookup_app_l by lia; destruct (s !! i); reflexivity.
Qed.

Lemma get_grown s r c N i key :
  i < length s ->
  tree.get (alter (tree.add_child c) r (s ++ [N])) i key = tree.get s i key.
Proof.
  intros Hi. unfold tree.get. rewrite list_lookup_alter.
  case_decide; subst; rewrite lookup_app_l by lia; destruct (s !! i); reflexivity.
Qed.

Lemma children_of_grown s r c N i :
  i < length s ->
  tree.children_of (alter (tree.add_child c) r (s ++ [N])) i
  = if decide (i = r) then tree.children_of s i ++ [c] else tree.children_of s i.
Proof.
  intros Hi. unfold tree.children_of. rewrite list_lookup_alter.
  destruct (decide (r = i)) as [->|Hne].
  - rewrite decide_True by reflexivity. rewrite lookup_app_l by lia.
    destruct (s !! i) eqn:E; [reflexivity|].
    apply lookup_ge_None in E. lia.
  - rewrite decide_False by congruence. rewrite lookup_app_l by lia. reflexivity.
Qed.

Lemma closed_children_of s i c :
  tree.closed s -> c ∈ tree.children_of s i -> c < length s.
Proof.
  intros Hs. unfold tree.children_of. destruct (s !! i) as [n|] eqn:E.
  - apply (closed_node _ _ _ Hs E).
  - intros H. inversion H.
Qed.

Lemma filter_tag_grown s r c N t (l : list nat) :
  (forall x, x ∈ l -> x < length s) ->
  filter (fun x => tree.tag_of (alter (tree.add_child c) r (s ++ [N])) x = Some t) l
  = filter (fun x => tree.tag_of s x = Some t) l.
Proof.
  intros Hl. induction l as [|x l IH]; [reflexivity|].
  rewrite !filter_cons, tag_of_grown by (apply Hl; left).
  rewrite IH by (intros y Hy; apply Hl; right; exact Hy). reflexivity.
Qed.

Lemma iterchildren_grown s r c N i t :
  tree.closed s -> r < length s -> i < length s -> c = length s ->
  tree.iterchildren (alter (tree.add_child c) r (s ++ [N])) i t
  = tree.iterchildren s i t
    ++ (if decide (i = r /\ tree.tag N = t) then [c] else []).
Proof.
  intros Hs Hr Hi ->. unfold tree.iterchildren.
  rewrite children_of_grown by exact Hi.
  assert (Hold : forall x, x ∈ tree.children_of s i -> x < length s)
    by (intros x; apply closed_children_of, Hs).
  destruct (decide (i = r)) as [->|Hne].
  - rewrite filter_app, (filter_tag_grown _ _ _ _ _ _ Hold). f_equal.
    rewrite filter_cons, filter_nil. unfold tree.tag_of.
    rewrite list_lookup_alter_ne by lia.
    rewrite list_lookup_middle by reflexivity. cbn [fmap option_fmap option_map].
    destruct (decide (tree.tag N = t)) as [->|Ht].
    + rewrite !decide_True by auto. reflexivity.
    + rewrite !decide_False by (intros H; apply Ht; first [injection H; auto | destruct H; auto]).
      reflexivity.
  - rewrite (filter_tag_grown _ _ _ _ _ _ Hold).
    rewrite decide_False by (intros [? _]; contradiction).
    rewrite app_nil_r. reflexivity.
Qed.

Lemma content_grown s r c N (els : list nat) :
  (forall x, x ∈ els -> x < length s) ->
  Spec.content (alter (tree.add_child c) r (s ++ [N])) (map Relation.make els)
  = Spec.content s (map Relation.make els).
Proof.
  intros Hl. unfold Spec.content. rewrite !map_map. apply map_ext_in.
  intros x Hx. apply list_elem_of_In, Hl in Hx.
  unfold Relation.get_reltype, Relation.get_target, etree.get. cbn [Relation.relation_el].
  rewrite !get_grown by exact Hx. reflexivity.
Qed.

Lemma relation_elements_closed s e x :
  tree.closed s -> x ∈ Spec.relation_elements s e -> x < length s.
Proof.
  intros Hs Hx. unfold Spec.relation_elements in Hx.
  apply list_elem_of_In, in_flat_map in Hx as (c & _ & Hx).
  apply list_elem_of_In in Hx. unfold tree.iterchildren in Hx.
  apply list_elem_of_filter in Hx as [_ Hx].
  apply (closed_children_of _ _ _ Hs Hx).
Qed.

Lemma flat_map_ext_elem {A B} (f g : A -> list B) (l : list A) :
  (forall x, x ∈ l -> f x = g x) -> flat_map f l = flat_map g l.
Proof.
  induction l as [|x l IH]; intros H; [reflexivity|]. cbn [flat_map].
  rewrite (H x) by left. rewrite IH; [reflexivity|].
  intros y Hy. apply H. right. exact Hy.
Qed.

Lemma relation_elements_grown s e n r N :
  tree.closed s -> s !! e = Some n -> NoDup (tree.children n) ->
  head (tree.iterchildren s e "SynsetRelations") = Some r ->
  tree.tag N = "SynsetRelation" ->
  exists before after,
    Spec.relation_elements s e = before ++ after
    /\ Spec.relation_elements (alter (tree.add_child (length s)) r (s ++ [N])) e
       = before ++ [length s] ++ after.
Proof.
  intros Hs Hn Hnd Hhead HN. pose proof (lookup_lt_Some _ _ _ Hn) as He.
  destruct (tree.iterchildren s e "SynsetRelations") as [|r' L] eqn:EL; [discriminate|].
  injection Hhead as ->.
  assert (Hin : forall x, x ∈ r :: L -> x < length s).
  { intros x Hx. rewrite <- EL in Hx. unfold tree.iterchildren in Hx.
    apply list_elem_of_filter in Hx as [_ Hx]. apply (closed_children_of _ _ _ Hs Hx). }
  assert (Hr : r < length s) by (apply Hin; left).
  assert (HndL : NoDup (r :: L)).
  { rewrite <- EL. unfold tree.iterchildren, tree.children_of. rewrite Hn.
    apply NoDup_filter, Hnd. }
  apply NoDup_cons in HndL as [HrL _].
  exists (tree.iterchildren s r "SynsetRelation"),
         (flat_map (fun c => tree.iterchildren s c "SynsetRelation") L).
  unfold Spec.relation_elements.
  rewrite (iterchildren_grown s r (length s) N e "SynsetRelations" Hs Hr He eq_refl).
  rewrite decide_False by (rewrite HN; intros [_ H]; discriminate).
  rewrite app_nil_r, EL. cbn [flat_map]. split; [reflexivity|].
  rewrite (iterchildren_grown s r (length s) N r "SynsetRelation" Hs Hr Hr eq_refl).
  rewrite decide_True by auto. rewrite <- app_assoc. do 2 f_equal.
  apply flat_map_ext_elem. intros x Hx.
  rewrite (iterchildren_grown s r (length s) N x "SynsetRelation" Hs Hr) by
    (try reflexivity; apply Hin; right; exact Hx).
  rewrite decide_False by (intros [-> _]; contradiction).
  apply app_nil_r.
Qed.

(** X8.  Where the node has a relations container when the view is
    constructed, the tree has no dangling reference and lists no child of the
    node twice, [validate_relation] returns for the pair, the pair is not yet
    among the relations, and the type and the target are strings that lxml
    takes as attribute values: [add_relation] returns [None]; the tree afterwards is the tree
    before with one new element, with the three attributes, as the last child
    of the first container; and [all_relations] lists what it listed before
    with the new pair placed after the relations of that container. *)
Lemma add_relation_with_container (s : tree.store) (e : tree.elem)
    (n : tree.node) (r : tree.elem) (reltypes syn_ids : list string)
    (v : Synset.validator) (reltype target : string) :
  tree.closed s -> s !! e = Some n -> NoDup (tree.children n) ->
  head (tree.iterchildren s e "SynsetRelations") = Some r ->
  v (etree.get s e "id") reltype target = None ->
  (Some reltype, Some target)
    ∉ Spec.content s (map Relation.make (Spec.relation_elements s e)) ->
  etree.xml_compatible reltype = true -> etree.xml_compatible target = true ->
  exists self s' before after,
    Synset.__init__ e reltypes syn_ids s = Returns self
    /\ Synset.add_relation (Synset.with_validate_relation v self) reltype target s
       = (Returns PyNone, s')
    /\ s' = alter (tree.add_child (length s)) r
              (s ++ [tree.Node "SynsetRelation"
                       [("provenance", "odwn"); ("relType", reltype);
                        ("target", target)] [] (Some r)])
    /\ (exists rels, Synset.all_relations self s = Returns rels
                     /\ Spec.content s rels = before ++ after)
    /\ (exists rels', Synset.all_relations self s' = Returns rels'
                      /\ Spec.content s' rels'
                         = before ++ [(Some reltype, Some target)] ++ after).
Proof.
  intros Hs Hn Hnd Hhead Hok Hnew Hrt Htg.
  set (N := tree.Node "SynsetRelation"
              [("provenance", "odwn"); ("relType", reltype); ("target", target)]
              [] (Some r)).
  destruct (relation_elements_grown s e n r N Hs Hn Hnd Hhead eq_refl)
    as (A & B & HAB & HAB').
  assert (Hr : r < length s).
  { destruct (tree.iterchildren s e "SynsetRelations") as [|r' L] eqn:EL; [discriminate|].
    injection Hhead as ->.
    assert (Hx : r ∈ tree.iterchildren s e "SynsetRelations") by (rewrite EL; left).
    unfold tree.iterchildren in Hx. apply list_elem_of_filter in Hx as [_ Hx].
    apply (closed_children_of _ _ _ Hs Hx). }
  eexists. exists (alter (tree.add_child (length s)) r (s ++ [N])).
  exists (Spec.content s (map Relation.make A)), (Spec.content s (map Relation.make B)).
  split; [apply init_returns|]. rewrite Hhead. split; [|split; [reflexivity|split]].
  - unfold Synset.add_relation, Synset.call_validate_relation, bind, reading, ret, raise.
    cbn [Synset.with_validate_relation Synset.validate_relation Synset.refs_el
         Synset.synset_el].
    unfold Synset.id. cbn [Synset.with_validate_relation Synset.synset_el].
    rewrite Hok, all_relations_in_document_order.
    cbn [Synset.with_validate_relation Synset.synset_el outcome_bind].
    fold (Spec.content s (map Relation.make (Spec.relation_elements s e))).
    rewrite decide_False by exact Hnew.
    pose proof (append_new_to_container s e n r "SynsetRelation"
                  [("provenance", "odwn"); ("relType", reltype); ("target", target)]
                  Hs Hn Hr) as Happ.
    rewrite (SubElement_relation _ _ _ _ Hrt Htg).
    unfold etree.attach in *. cbn [snd] in Happ. rewrite Happ. reflexivity.
  - eexists. split; [apply all_relations_in_document_order|].
    cbn [Synset.synset_el]. rewrite HAB, map_app. unfold Spec.content.
    rewrite map_app. reflexivity.
  - eexists. split; [apply all_relations_in_document_order|].
    cbn [Synset.synset_el]. rewrite HAB'.
    assert (HA : forall x, x ∈ A -> x < length s).
    { intros x Hx. apply (relation_elements_closed s e x Hs). rewrite HAB.
      apply elem_of_app. left. exact Hx. }
    assert (HB : forall x, x ∈ B -> x < length s).
    { intros x Hx. apply (relation_elements_closed s e x Hs). rewrite HAB.
      apply elem_of_app. right. exact Hx. }
    rewrite !map_app. unfold Spec.content at 1. rewrite !map_app.
    fold (Spec.content (alter (tree.add_child (length s)) r (s ++ [N])) (map Relation.make A)).
    fold (Spec.content (alter (tree.add_child (length s)) r (s ++ [N])) (map Relation.make B)).
    rewrite (content_grown _ _ _ _ _ HA), (content_grown _ _ _ _ _ HB).
    do 2 f_equal. cbn [map]. f_equal.
    unfold Relation.get_reltype, Relation.get_target, etree.get, tree.get.
    cbn [Relation.relation_el].
    rewrite list_lookup_alter_ne by lia.
    rewrite list_lookup_middle by reflexivity. reflexivity.
Qed.

Example add_relation_docstring_validated :
  exists s',
    Synset.add_relation
      (Synset.with_validate_relation
         (Spec.validate_relation Docstring.known_reltypes Docstring.known_ids)
         Docstring.synset)
      "has_hyperonym" "eng-30-00325085-v" Docstring.doc
    = (Returns PyNone, s')
    /\ tree.children_of s' 1 = [2; 3]
    /\ tree.children_of s' 3 = [4; 5; 6]
    /\ s' !! 6 = Some (tree.Node "SynsetRelation"
                         [("provenance", "odwn"); ("relType", "has_hyperonym");
                          ("target", "eng-30-00325085-v")] [] (Some 3))
    /\ Synset.all_relations Docstring.synset s'
       = Returns [Relation.make 4; Relation.make 5; Relation.make 6].
Proof. eexists. split; [vm_compute; reflexivity|]. repeat split. Qed.

(** * Further properties of the class *)

(** ** Construction keeps the first section of each kind *)

Lemma head_filter_first {A} (P : A -> Prop) `{!forall x, Decision (P x)}
    (l : list A) :
  match head (filter P l) with
  | Some r =>
      exists before after,
        l = before ++ r :: after /\ P r /\ forall x, x ∈ before -> ~ P x
  | None => forall x, x ∈ l -> ~ P x
  end.
Proof.
  induction l as [|a l IH]; [intros x Hx; inversion Hx|].
  rewrite filter_cons. destruct (decide (P a)) as [Ha|Ha].
  - cbn [head]. exists [], l. split; [reflexivity|]. split; [exact Ha|].
    intros x Hx. inversion Hx.
  - destruct (head (filter P l)) as [r|].
    + destruct IH as (b & af & -> & Hr & Hb). exists (a :: b), af.
      split; [reflexivity|]. split; [exact Hr|].
      intros x Hx. apply elem_of_cons in Hx as [->|Hx]; [exact Ha|apply Hb, Hx].
    + intros x Hx. apply elem_of_cons in Hx as [->|Hx]; [exact Ha|apply IH, Hx].
Qed.

(** X1.  The constructor returns on every element.  The view it builds keeps
    the element and the two vocabularies it was given, and has no
    [validate_relation]; [defs_els] is the first child of the element with the
    tag Definitions and [refs_el] the first child with the tag
    SynsetRelations, in document order, each [None] where the element has no
    such child. *)
Theorem init_keeps_first_sections (s : tree.store) (e : tree.elem)
    (reltypes syn_ids : list string) :
  exists self,
    Synset.__init__ e reltypes syn_ids s = Returns self
    /\ Synset.synset_el self = e
    /\ Synset.reltypes self = reltypes
    /\ Synset.syn_ids self = syn_ids
    /\ Synset.validate_relation self = None
    /\ Layout.first_with_tag s e "Definitions" (Synset.defs_els self)
    /\ Layout.first_with_tag s e "SynsetRelations" (Synset.refs_el self).
Proof.
  eexists. split; [apply init_returns|]. cbn.
  repeat (split; [reflexivity|]).
  split; unfold Layout.first_with_tag, tree.iterchildren; apply head_filter_first.
Qed.

(** ** The outcomes of [pos] *)

(** X2.  [pos] returns exactly where the [id] attribute is some text followed
    by one character, and what it returns is that character; it raises
    TypeError exactly where the attribute is absent and IndexError exactly
    where it is empty; there is no other outcome. *)
Theorem pos_outcomes (self : Synset.t) (s : tree.store) :
  (forall p, Synset.pos self s = Returns p <->
     exists pre c, p = String c "" /\ Synset.id self s = Some (pre +:+ p))
  /\ (forall err, Synset.pos self s = Raises err <->
        (Synset.id self s = None
         /\ err = TypeError "'NoneType' object is not subscriptable")
        \/ (Synset.id self s = Some ""
            /\ err = IndexError "string index out of range"))
  /\ Synset.pos self s <> Beyond.
Proof.
  unfold Synset.pos. destruct (Synset.id self s) as [x|].
  - destruct (decide (x = "")) as [->|Hx].
    + cbn. split; [|split; [|discriminate]].
      * intros p. split; [discriminate|]. intros (pre & c & -> & E).
        injection E as E'. destruct pre; discriminate E'.
      * intros err. split.
        -- intros [= <-]. right. split; reflexivity.
        -- intros [[H _]|[_ ->]]; [discriminate|reflexivity].
    + destruct (string_snoc x Hx) as (pre & c & ->). rewrite last_char_snoc.
      split; [|split; [|discriminate]].
      * intros p. split.
        -- intros [= <-]. exists pre, c. split; reflexivity.
        -- intros (pre' & c' & -> & E). injection E as E'.
           apply (f_equal Synset.last_char) in E'. rewrite !last_char_snoc in E'.
           injection E' as <-. reflexivity.
      * intros err. split; [discriminate|].
        intros [[H _]|[H _]]; [discriminate|].
        injection H as H'. destruct pre; discriminate H'.
  - split; [|split; [|discriminate]].
    + intros p. split; [discriminate|]. intros (pre & c & _ & E). discriminate.
    + intros err. split.
      * intros [= <-]. left. split; reflexivity.
      * intros [[_ ->]|[H _]]; [reflexivity|discriminate].
Qed.

(** ** [glosses] and the collection of languages *)

Lemma sublist_map_filter_impl {A B} (f : A -> B) (P Q : A -> Prop)
    `{!forall x, Decision (P x)} `{!forall x, Decision (Q x)} (l : list A) :
  (forall x, P x -> Q x) -> sublist (map f (filter P l)) (map f (filter Q l)).
Proof.
  intros Himpl. induction l as [|x l IH]; [constructor|].
  rewrite !filter_cons.
  destruct (decide (P x)) as [HP|HP], (decide (Q x)) as [HQ|HQ]; cbn [map].
  - apply sublist_skip, IH.
  - exfalso. apply HQ, Himpl, HP.
  - apply sublist_cons, IH.
  - exact IH.
Qed.

(** X3.  On any view, [glosses] returns for every collection of languages,
    and a collection that holds every language of another gives every gloss
    the other gives, in the same order: the order of the languages in the
    collection and their repetition are of no account. *)
Theorem glosses_more_languages (self : Synset.t) (s : tree.store)
    (languages languages' : list string) :
  (forall l, l ∈ languages -> l ∈ languages') ->
  exists g g',
    Synset.glosses self languages s = Returns g
    /\ Synset.glosses self languages' s = Returns g'
    /\ sublist g g'.
Proof.
  intros H. unfold Synset.glosses. destruct (Synset.defs_els self) as [d|].
  - rewrite (iterfind_child _ _ _ _ compile_Definition). cbn [outcome_bind].
    eexists _, _. split; [reflexivity|]. split; [reflexivity|].
    apply sublist_map_filter_impl. intros x Hx.
    apply list_elem_of_fmap in Hx as (l & E & Hl).
    apply list_elem_of_fmap. exists l. split; [exact E|apply H, Hl].
  - exists [], []. split; [reflexivity|]. split; [reflexivity|]. constructor.
Qed.

Lemma glosses_more_languages_witness :
  exists g g',
    Synset.glosses Format.synset ["nl"] Format.doc = Returns g
    /\ Synset.glosses Format.synset ["nl"; "en"; "nl"] Format.doc = Returns g'
    /\ sublist g g'.
Proof.
  apply (glosses_more_languages Format.synset Format.doc ["nl"] ["nl"; "en"; "nl"]).
  intros l Hl. apply list_elem_of_In in Hl. apply list_elem_of_In.
  simpl in *. tauto.
Defined.

(** ** [all_relations] and [relations] over every container *)

(** X4.  [all_relations] returns on every view, and a relation is listed
    exactly when its element has the tag SynsetRelation and is a child of a
    child of the node that has the tag SynsetRelations: every container of the
    node is read, whatever [refs_el] the view holds. *)
Theorem all_relations_lists_every_container (self : Synset.t) (s : tree.store) :
  exists rels,
    Synset.all_relations self s = Returns rels
    /\ forall x, Relation.make x ∈ rels <->
         exists c, c ∈ tree.children_of s (Synset.synset_el self)
                   /\ tree.tag_of s c = Some "SynsetRelations"
                   /\ x ∈ tree.children_of s c
                   /\ tree.tag_of s x = Some "SynsetRelation".
Proof.
  eexists. split; [apply all_relations_in_document_order|]. intros x.
  unfold Spec.relation_elements, tree.iterchildren. split.
  - intros Hx. apply list_elem_of_In, in_map_iff in Hx as (y & [= ->] & Hy).
    apply in_flat_map in Hy as (c & Hc & Hx).
    apply list_elem_of_In, list_elem_of_filter in Hc as [Htc Hc].
    apply list_elem_of_In, list_elem_of_filter in Hx as [Htx Hx].
    exists c. auto.
  - intros (c & Hc & Htc & Hx & Htx).
    apply list_elem_of_In, in_map_iff. exists x. split; [reflexivity|].
    apply in_flat_map. exists c.
    split; apply list_elem_of_In, list_elem_of_filter; auto.
Qed.

Lemma relations_of_type_witness :
  ElementPath.mem_char ElementPath.dquote "has_hyperonym" = false
  /\ exists rels,
       Synset.all_relations Docstring.synset Docstring.doc = Returns rels
       /\ Synset.relations Docstring.synset "has_hyperonym" Docstring.doc
          = Returns (Spec.of_type Docstring.doc "has_hyperonym" rels).
Proof.
  split; [reflexivity|].
  apply (relations_of_type Docstring.synset Docstring.doc "has_hyperonym").
  reflexivity.
Defined.

Lemma relations_filtered self s t :
  ElementPath.mem_char ElementPath.dquote t = false ->
  Synset.relations self t s
  = Returns (Spec.of_type s t
               (map Relation.make (Spec.relation_elements s (Synset.synset_el self)))).
Proof.
  intros Ht. unfold Synset.relations, etree.iterfind, ElementPath.iterfind.
  rewrite (compile_xml_query _ Ht). cbn [outcome_bind].
  unfold ElementPath.run. cbn [fold_left ElementPath.select flat_map].
  rewrite app_nil_r. rewrite of_type_make. reflexivity.
Qed.

(** ** [add_relation] with a [validate_relation] supplied from outside *)

Lemma add_relation_duplicate_witness :
  Synset.add_relation
    (Synset.with_validate_relation
       (Spec.validate_relation Docstring.known_reltypes Docstring.known_ids)
       Docstring.synset)
    "has_hyperonym" "eng-30-00322847-v" Docstring.doc
  = (Raises (ValueError "relation already exists"), Docstring.doc).
Proof.
  apply (add_relation_duplicate _
           (Spec.validate_relation Docstring.known_reltypes Docstring.known_ids)
           _ _ _ [Relation.make 4; Relation.make 5]).
  - reflexivity.
  - reflexivity.
  - reflexivity.
  - vm_compute. left.
Defined.

Lemma add_relation_validation_first_witness :
  Synset.add_relation
    (Synset.with_validate_relation
       (Spec.validate_relation Docstring.known_reltypes Docstring.known_ids)
       Docstring.synset)
    "has_meronym" "eng-30-00322847-v" Docstring.doc
  = (Raises (OtherError "InvalidRelationType" "has_meronym"), Docstring.doc).
Proof.
  apply (add_relation_validation_first _
           (Spec.validate_relation Docstring.known_reltypes Docstring.known_ids)).
  - reflexivity.
  - reflexivity.
Defined.

Lemma add_relation_with_container_witness :
  tree.closed Docstring.doc
  /\ exists self s',
       Synset.__init__ 1 Docstring.known_reltypes Docstring.known_ids Docstring.doc
       = Returns self
       /\ Synset.add_relation
            (Synset.with_validate_relation
               (Spec.validate_relation Docstring.known_reltypes Docstring.known_ids)
               self)
            "has_hyperonym" "eng-30-00325085-v" Docstring.doc
          = (Returns PyNone, s')
       /\ exists rels',
            Synset.all_relations self s' = Returns rels'
            /\ (Some "has_hyperonym", Some "eng-30-00325085-v")
                 ∈ Spec.content s' rels'.
Proof.
  split; [reflexivity|].
  destruct (add_relation_with_container Docstring.doc 1
              (tree.Node "Synset" [("id", "eng-30-00324560-v"); ("ili", "i23355")]
                 [2; 3] (Some 0))
              3 Docstring.known_reltypes Docstring.known_ids
              (Spec.validate_relation Docstring.known_reltypes Docstring.known_ids)
              "has_hyperonym" "eng-30-00325085-v")
    as (self & s' & before & after & Hinit & Hadd & _ & _ & rels' & Hrels & Hcont);
    try reflexivity.
  - apply NoDup_cons. split; [|apply NoDup_singleton].
    intros H. apply list_elem_of_In in H. simpl in H. lia.
  - intros H. apply list_elem_of_In in H. simpl in H.
    destruct H as [H|[H|[]]]; discriminate.
  - exists self, s'. split; [exact Hinit|]. split; [exact Hadd|].
    exists rels'. split; [exact Hrels|]. rewrite Hcont.
    apply elem_of_app. right. left.
Defined.

(** The step of [add_relation] past the duplicate check, on a view that holds
    a container. *)
Lemma add_relation_appends self v reltype target s n r :
  tree.closed s -> s !! Synset.synset_el self = Some n -> r < length s ->
  Synset.refs_el self = Some r ->
  Synset.validate_relation self = Some v ->
  v (Synset.id self s) reltype target = None ->
  (Some reltype, Some target)
    ∉ Spec.content s (map Relation.make (Spec.relation_elements s (Synset.synset_el self))) ->
  etree.xml_compatible reltype = true -> etree.xml_compatible target = true ->
  Synset.add_relation self reltype target s
  = (Returns PyNone,
     alter (tree.add_child (length s)) r
       (s ++ [tree.Node "SynsetRelation"
                [("provenance", "odwn"); ("relType", reltype); ("target", target)]
                [] (Some r)])).
Proof.
  intros Hs Hn Hr Hrefs Hv Hok Hnew Hrt Htg.
  unfold Synset.add_relation, Synset.call_validate_relation, bind, reading, ret, raise.
  rewrite Hv, Hok, Hrefs, all_relations_in_document_order. cbn [outcome_bind].
  fold (Spec.content s (map Relation.make (Spec.relation_elements s (Synset.synset_el self)))).
  rewrite decide_False by exact Hnew.
  pose proof (append_new_to_container s (Synset.synset_el self) n r "SynsetRelation"
                [("provenance", "odwn"); ("relType", reltype); ("target", target)]
                Hs Hn Hr) as Happ.
  rewrite (SubElement_relation _ _ _ _ Hrt Htg).
  unfold etree.attach in *. cbn [snd] in Happ. rewrite Happ. reflexivity.
Qed.

(** The same step on a view that holds no container. *)
Lemma add_relation_absent_container self v reltype target s n :
  tree.closed s -> s !! Synset.synset_el self = Some n ->
  Synset.refs_el self = None ->
  Synset.validate_relation self = Some v ->
  v (Synset.id self s) reltype target = None ->
  (Some reltype, Some target)
    ∉ Spec.content s (map Relation.make (Spec.relation_elements s (Synset.synset_el self))) ->
  etree.xml_compatible reltype = true -> etree.xml_compatible target = true ->
  Synset.add_relation self reltype target s
  = (Raises (AttributeError "'NoneType' object has no attribute 'append'"),
     <[Synset.synset_el self :=
         tree.Node (tree.tag n) (tree.attrib n)
           (tree.children n ++ [length s; S (length s)]) (tree.parent n)]>
       (s ++ [tree.Node "SynsetRelations" [] [] (Some (Synset.synset_el self));
              tree.Node "SynsetRelation"
                [("provenance", "odwn"); ("relType", reltype); ("target", target)]
                [] (Some (Synset.synset_el self))])).
Proof.
  intros Hs Hn Hrefs Hv Hok Hnew Hrt Htg. pose proof (lookup_lt_Some _ _ _ Hn) as He.
  unfold Synset.add_relation, Synset.call_validate_relation, bind, reading, ret, raise.
  rewrite Hv, Hok, Hrefs, all_relations_in_document_order. cbn [outcome_bind].
  fold (Spec.content s (map Relation.make (Spec.relation_elements s (Synset.synset_el self)))).
  rewrite decide_False by exact Hnew.
  set (e := Synset.synset_el self) in *.
  rewrite SubElement_container.
  destruct (etree.attach e "SynsetRelations" [] s) as [o s1] eqn:E1.
  pose proof (append_new_last_child s e n "SynsetRelations" [] Hs Hn) as Happ.
  rewrite E1 in Happ. cbn [snd] in Happ.
  unfold etree.attach in E1. injection E1 as <- <-.
  rewrite Happ.
  rewrite (SubElement_relation _ _ _ _ Hrt Htg).
  unfold etree.attach. f_equal.
  rewrite length_alter, length_app. cbn [length].
  replace (length s + 1) with (S (length s)) by lia.
  rewrite alter_app_l by (rewrite length_alter, length_app; cbn [length]; lia).
  rewrite list_alter_alter_eq, alter_app_l by lia.
  rewrite <- app_assoc. cbn [app].
  rewrite list_insert_alter, alter_app_l by lia. f_equal.
  apply list_alter_ext; [|reflexivity]. intros x Hx.
  rewrite Hn in Hx. injection Hx as <-.
  unfold compose, tree.add_child. cbn [tree.children tree.tag tree.attrib tree.parent].
  rewrite <- app_assoc. reflexivity.
Qed.

(** [closed] in terms of the nodes of the store. *)
Lemma closed_iff s :
  tree.closed s <->
  forall i n, s !! i = Some n ->
    (forall c, c ∈ tree.children n -> c < length s)
    /\ (forall p, tree.parent n = Some p -> p < length s).
Proof.
  split; [intros Hs i n; apply closed_node, Hs|].
  intros H. unfold tree.closed, tree.closedb. apply forallb_forall.
  intros n Hn. apply list_elem_of_In, list_elem_of_lookup in Hn as [i Hi].
  destruct (H i n Hi) as [Hc Hp]. apply andb_true_intro. split.
  - apply forallb_forall. intros c Hc'. apply Nat.ltb_lt, Hc, list_elem_of_In, Hc'.
  - destruct (tree.parent n) as [p|]; [|reflexivity]. apply Nat.ltb_lt, Hp. reflexivity.
Qed.

Lemma head_iterchildren_valid s e t r :
  tree.closed s -> head (tree.iterchildren s e t) = Some r ->
  r < length s /\ r ∈ tree.children_of s e /\ tree.tag_of s r = Some t.
Proof.
  intros Hs Hh. apply head_Some_elem_of in Hh.
  unfold tree.iterchildren in Hh. apply list_elem_of_filter in Hh as [Ht Hr].
  split; [apply (closed_children_of _ _ _ Hs Hr)|]. split; assumption.
Qed.

(** X9.  Where a call of [add_relation] has added the pair (the node has a
    container when the view is constructed, the tree has no dangling reference
    and lists no child of the node twice, [validate_relation] returns for the
    pair, the pair is not yet among the relations, the type and the target are
    strings that lxml takes as attribute values), the same call on the same
    view, made again, is refused with ValueError and leaves the tree as the
    first call left it. *)
Theorem add_relation_twice (s : tree.store) (e : tree.elem) (n : tree.node)
    (r : tree.elem) (reltypes syn_ids : list string) (v : Synset.validator)
    (reltype target : string) :
  tree.closed s -> s !! e = Some n -> NoDup (tree.children n) ->
  head (tree.iterchildren s e "SynsetRelations") = Some r ->
  v (etree.get s e "id") reltype target = None ->
  (Some reltype, Some target)
    ∉ Spec.content s (map Relation.make (Spec.relation_elements s e)) ->
  etree.xml_compatible reltype = true -> etree.xml_compatible target = true ->
  exists self s',
    Synset.__init__ e reltypes syn_ids s = Returns self
    /\ Synset.add_relation (Synset.with_validate_relation v self) reltype target s
       = (Returns PyNone, s')
    /\ Synset.add_relation (Synset.with_validate_relation v self) reltype target s'
       = (Raises (ValueError "relation already exists"), s').
Proof.
  intros Hs Hn Hnd Hhead Hok Hnew Hrt Htg.
  destruct (head_iterchildren_valid _ _ _ _ Hs Hhead) as (Hr & _ & _).
  pose proof (lookup_lt_Some _ _ _ Hn) as He.
  set (N := tree.Node "SynsetRelation"
              [("provenance", "odwn"); ("relType", reltype); ("target", target)]
              [] (Some r)).
  eexists. exists (alter (tree.add_child (length s)) r (s ++ [N])).
  split; [apply init_returns|]. rewrite Hhead. split.
  - apply (add_relation_appends _ v _ _ _ n r); try assumption; reflexivity.
  - destruct (relation_elements_grown s e n r N Hs Hn Hnd Hhead eq_refl)
      as (A & B & HAB & HAB').
    unfold Synset.add_relation, Synset.call_validate_relation, bind, reading, ret, raise.
    cbn [Synset.with_validate_relation Synset.validate_relation Synset.synset_el].
    unfold Synset.id. cbn [Synset.with_validate_relation Synset.synset_el].
    unfold etree.get in *.
    rewrite get_grown by exact He. rewrite Hok.
    rewrite all_relations_in_document_order.
    cbn [Synset.with_validate_relation Synset.synset_el outcome_bind].
    rewrite decide_True; [reflexivity|].
    rewrite HAB'. apply list_elem_of_fmap. exists (Relation.make (length s)).
    split.
    + unfold Relation.get_reltype, Relation.get_target, etree.get, tree.get.
      cbn [Relation.relation_el].
      rewrite list_lookup_alter_ne by lia.
      rewrite list_lookup_middle by reflexivity. reflexivity.
    + apply list_elem_of_fmap. exists (length s). split; [reflexivity|].
      apply elem_of_app. right. left.
Qed.

Lemma add_relation_twice_witness :
  tree.closed Docstring.doc
  /\ exists self s',
       Synset.__init__ 1 Docstring.known_reltypes Docstring.known_ids Docstring.doc
       = Returns self
       /\ Synset.add_relation
            (Synset.with_validate_relation
               (Spec.validate_relation Docstring.known_reltypes Docstring.known_ids)
               self)
            "has_hyperonym" "eng-30-00325085-v" Docstring.doc
          = (Returns PyNone, s')
       /\ Synset.add_relation
            (Synset.with_validate_relation
               (Spec.validate_relation Docstring.known_reltypes Docstring.known_ids)
               self)
            "has_hyperonym" "eng-30-00325085-v" s'
          = (Raises (ValueError "relation already exists"), s').
Proof.
  split; [reflexivity|].
  apply (add_relation_twice Docstring.doc 1
           (tree.Node "Synset" [("id", "eng-30-00324560-v"); ("ili", "i23355")]
              [2; 3] (Some 0))
           3 Docstring.known_reltypes Docstring.known_ids
           (Spec.validate_relation Docstring.known_reltypes Docstring.known_ids)
           "has_hyperonym" "eng-30-00325085-v");
    try reflexivity.
  - apply NoDup_cons. split; [|apply NoDup_singleton].
    intros H. apply list_elem_of_In in H. simpl in H. lia.
  - intros H. apply list_elem_of_In in H. simpl in H.
    destruct H as [H|[H|[]]]; discriminate.
Defined.

(** ** What [add_relation] leaves in place *)

Lemma alter_keeps_labels f i s j :
  (forall n, tree.tag (f n) = tree.tag n /\ tree.attrib (f n) = tree.attrib n) ->
  tree.tag_of (alter f i s) j = tree.tag_of s j
  /\ forall key, tree.get (alter f i s) j key = tree.get s j key.
Proof.
  intros Hf. unfold tree.tag_of, tree.get. rewrite list_lookup_alter.
  case_decide; subst; [|split; reflexivity].
  destruct (s !! j) as [n|]; [|split; reflexivity]. cbn.
  destruct (Hf n) as [-> ->]. split; reflexivity.
Qed.

Lemma unlink_keeps_labels c s j :
  tree.tag_of (etree.unlink c s) j = tree.tag_of s j
  /\ forall key, tree.get (etree.unlink c s) j key = tree.get s j key.
Proof.
  unfold etree.unlink. destruct (tree.getparent s c) as [q|]; [|split; reflexivity].
  destruct (alter_keeps_labels (tree.set_parent None) c
              (alter (tree.drop_child c) q s) j) as [T1 G1];
    [intros m; split; reflexivity|].
  destruct (alter_keeps_labels (tree.drop_child c) q s j) as [T2 G2];
    [intros m; split; reflexivity|].
  split; [congruence|]. intros key. rewrite G1. apply G2.
Qed.

Lemma link_keeps_labels p c s j :
  tree.tag_of (etree.link p c s) j = tree.tag_of s j
  /\ forall key, tree.get (etree.link p c s) j key = tree.get s j key.
Proof.
  unfold etree.link.
  destruct (alter_keeps_labels (tree.set_parent (Some p)) c
              (alter (tree.add_child c) p s) j) as [T1 G1];
    [intros m; split; reflexivity|].
  destruct (alter_keeps_labels (tree.add_child c) p s j) as [T2 G2];
    [intros m; split; reflexivity|].
  split; [congruence|]. intros key. rewrite G1. apply G2.
Qed.











(** X11.  A call of [add_relation] that returns hands back [None], and it
    returns only where the view has a [validate_relation] that returned for
    the pair, the pair was not among the relations of the node, and the view
    holds a container; the tree then has exactly one element more than before
    the call, a SynsetRelation whose attributes are provenance odwn, the
    relation type and the target. *)
Theorem add_relation_returns_only_after_adding (self : Synset.t)
    (reltype target : string) (s s' : tree.store) (x : pyvalue) :
  Synset.add_relation self reltype target s = (Returns x, s') ->
  x = PyNone
  /\ (exists v, Synset.validate_relation self = Some v
                /\ v (Synset.id self s) reltype target = None)
  /\ ((Some reltype, Some target)
        ∉ Spec.content s
            (map Relation.make (Spec.relation_elements s (Synset.synset_el self))))
  /\ (exists r, Synset.refs_el self = Some r)
  /\ length s' = S (length s)
  /\ tree.tag_of s' (length s) = Some "SynsetRelation"
  /\ forall key,
       tree.get s' (length s) key
       = tree.assoc key
           [("provenance", "odwn"); ("relType", reltype); ("target", target)].
Proof.
  unfold Synset.add_relation, Synset.call_validate_relation, bind, reading, ret, raise.
  destruct (Synset.validate_relation self) as [v|]; [|discriminate].
  destruct (v (Synset.id self s) reltype target) eqn:Hv; [discriminate|].
  rewrite all_relations_in_document_order. cbn [outcome_bind].
  fold (Spec.content s (map Relation.make (Spec.relation_elements s (Synset.synset_el self)))).
  destruct (decide _) as [|Hnew]; [discriminate|].
  destruct (Synset.refs_el self) as [r|].
  - unfold etree.SubElement, etree.attach, etree.append.
    destruct (_ && _); [|discriminate].
    destruct (etree.is_ancestor_or_same _ _ _ _); [discriminate|].
    intros [= <- <-].
    split; [reflexivity|]. split; [exists v; split; [reflexivity|exact Hv]|].
    split; [exact Hnew|]. split; [exists r; reflexivity|].
    set (N := tree.Node "SynsetRelation" _ _ _).
    set (s1 := alter (tree.add_child (length s)) (Synset.synset_el self) (s ++ [N])).
    destruct (link_keeps_labels r (length s) (etree.unlink (length s) s1) (length s))
      as [T1 G1].
    destruct (unlink_keeps_labels (length s) s1 (length s)) as [T2 G2].
    destruct (alter_keeps_labels (tree.add_child (length s)) (Synset.synset_el self)
                (s ++ [N]) (length s)) as [T3 G3];
      [intros m; split; reflexivity|].
    fold s1 in T3, G3.
    split; [|split].
    + unfold etree.link, etree.unlink.
      destruct (tree.getparent s1 (length s)); unfold s1;
        rewrite !length_alter, length_app; cbn [length]; lia.
    + rewrite T1, T2, T3. unfold tree.tag_of.
      rewrite list_lookup_middle by reflexivity. reflexivity.
    + intros key. rewrite G1, G2, G3. unfold tree.get.
      rewrite list_lookup_middle by reflexivity. reflexivity.
  - rewrite SubElement_container. unfold etree.SubElement, etree.attach, etree.append.
    destruct (etree.is_ancestor_or_same _ _ _ _); [discriminate|].
    destruct (_ && _); discriminate.
Qed.

Lemma add_relation_returns_only_after_adding_witness :
  exists s',
    Synset.add_relation
      (Synset.with_validate_relation
         (Spec.validate_relation Docstring.known_reltypes Docstring.known_ids)
         Docstring.synset)
      "has_hyperonym" "eng-30-00325085-v" Docstring.doc
    = (Returns PyNone, s')
    /\ length s' = 7
    /\ tree.tag_of s' 6 = Some "SynsetRelation"
    /\ tree.get s' 6 "provenance" = Some "odwn".
Proof.
  eexists. split; [vm_compute; reflexivity|].
  destruct (add_relation_returns_only_after_adding
              (Synset.with_validate_relation
                 (Spec.validate_relation Docstring.known_reltypes Docstring.known_ids)
                 Docstring.synset)
              "has_hyperonym" "eng-30-00325085-v" Docstring.doc _ PyNone
              ltac:(vm_compute; reflexivity))
    as (_ & _ & _ & _ & Hlen & Htag & Hget).
  split; [exact Hlen|]. split; [exact Htag|]. exact (Hget "provenance").
Defined.

(** ** Strings that lxml refuses *)

Lemma SubElement_relation_refused p reltype target s :
  etree.xml_compatible reltype && etree.xml_compatible target = false ->
  etree.SubElement p "SynsetRelation"
    [("provenance", "odwn"); ("relType", reltype); ("target", target)] s
  = (Raises etree.not_xml_compatible, s).
Proof.
  intros Hbad. unfold etree.SubElement. cbn [forallb fst snd].
  destruct (etree.xml_compatible reltype), (etree.xml_compatible target);
    try discriminate; reflexivity.
Qed.

(** X17.  A type or a target with a control character that lxml does not take
    into a tree, where [validate_relation] returns for the pair and the pair
    is not among the relations: [add_relation] raises the ValueError of lxml.
    On a view that holds a container the tree is left as it was; on a view
    without container, of a node of a tree without dangling reference, the
    tree is left with one new element, the empty container, as the last child
    of the node. *)
Theorem add_relation_refused_strings (self : Synset.t) (v : Synset.validator)
    (reltype target : string) (s : tree.store) :
  Synset.validate_relation self = Some v ->
  v (Synset.id self s) reltype target = None ->
  (Some reltype, Some target)
    ∉ Spec.content s (map Relation.make (Spec.relation_elements s (Synset.synset_el self))) ->
  etree.xml_compatible reltype && etree.xml_compatible target = false ->
  (forall r, Synset.refs_el self = Some r ->
     Synset.add_relation self reltype target s
     = (Raises etree.not_xml_compatible, s))
  /\ (forall n, Synset.refs_el self = None -> tree.closed s ->
        s !! Synset.synset_el self = Some n ->
        Synset.add_relation self reltype target s
        = (Raises etree.not_xml_compatible,
           alter (tree.add_child (length s)) (Synset.synset_el self)
             (s ++ [tree.Node "SynsetRelations" [] []
                      (Some (Synset.synset_el self))]))).
Proof.
  intros Hv Hok Hnew Hbad. split.
  - intros r Hrefs.
    unfold Synset.add_relation, Synset.call_validate_relation, bind, reading, ret, raise.
    rewrite Hv, Hok, Hrefs, all_relations_in_document_order. cbn [outcome_bind].
    fold (Spec.content s (map Relation.make (Spec.relation_elements s (Synset.synset_el self)))).
    rewrite decide_False by exact Hnew.
    rewrite (SubElement_relation_refused _ _ _ _ Hbad). reflexivity.
  - intros n Hrefs Hs Hn.
    unfold Synset.add_relation, Synset.call_validate_relation, bind, reading, ret, raise.
    rewrite Hv, Hok, Hrefs, all_relations_in_document_order. cbn [outcome_bind].
    fold (Spec.content s (map Relation.make (Spec.relation_elements s (Synset.synset_el self)))).
    rewrite decide_False by exact Hnew.
    rewrite SubElement_container.
    pose proof (append_new_last_child s (Synset.synset_el self) n "SynsetRelations" []
                  Hs Hn) as Happ.
    unfold etree.attach in *. cbn [snd] in Happ. rewrite Happ.
    rewrite (SubElement_relation_refused _ _ _ _ Hbad). reflexivity.
Qed.

Lemma add_relation_refused_strings_witness :
  etree.xml_compatible Control.control_type = false
  /\ Synset.add_relation
       (Synset.with_validate_relation
          (Spec.validate_relation [Control.control_type] Docstring.known_ids)
          Control.docstring_synset)
       Control.control_type "eng-30-00325085-v" Docstring.doc
     = (Raises etree.not_xml_compatible, Docstring.doc).
Proof.
  split; [reflexivity|].
  refine (proj1 (add_relation_refused_strings
                   (Synset.with_validate_relation
                      (Spec.validate_relation [Control.control_type]
                         Docstring.known_ids)
                      Control.docstring_synset)
                   (Spec.validate_relation [Control.control_type] Docstring.known_ids)
                   Control.control_type "eng-30-00325085-v" Docstring.doc
                   eq_refl eq_refl _ eq_refl) 3 eq_refl).
  intros H. apply list_elem_of_In in H. simpl in H.
  destruct H as [H|[H|[]]]; discriminate.
Defined.

(** ** [add_relation] on a view without container, again *)

Lemma filter_ext_elem {A} (P Q : A -> Prop) `{!forall x, Decision (P x)}
    `{!forall x, Decision (Q x)} (l : list A) :
  (forall x, x ∈ l -> P x <-> Q x) -> filter P l = filter Q l.
Proof.
  induction l as [|x l IH]; intros Hl; [reflexivity|].
  rewrite !filter_cons. rewrite IH by (intros y Hy; apply Hl; right; exact Hy).
  pose proof (Hl x ltac:(left)) as Hx.
  destruct (decide (P x)) as [HP|HP], (decide (Q x)) as [HQ|HQ];
    try reflexivity; tauto.
Qed.

(** The tree that the call leaves behind where the view holds no container. *)
Section AfterFailedCall.

Variables (s : tree.store) (e : tree.elem) (n : tree.node) (reltype target : string).
Hypothesis Hs : tree.closed s.
Hypothesis Hn : s !! e = Some n.

Let N0 := tree.Node "SynsetRelations" [] [] (Some e).
Let N1 := tree.Node "SynsetRelation"
            [("provenance", "odwn"); ("relType", reltype); ("target", target)]
            [] (Some e).
Let n' := tree.Node (tree.tag n) (tree.attrib n)
            (tree.children n ++ [length s; S (length s)]) (tree.parent n).
Let s1 := <[e := n']> (s ++ [N0; N1]).

Lemma failed_lookup i :
  s1 !! i = if decide (i = e) then Some n'
            else if decide (i = length s) then Some N0
            else if decide (i = S (length s)) then Some N1
            else s !! i.
Proof.
  pose proof (lookup_lt_Some _ _ _ Hn) as He. unfold s1.
  destruct (decide (i = e)) as [->|Hie].
  - apply list_lookup_insert_eq. rewrite length_app. lia.
  - rewrite list_lookup_insert_ne by congruence.
    destruct (decide (i = length s)) as [->|H0].
    { rewrite list_lookup_middle by reflexivity. reflexivity. }
    destruct (decide (i = S (length s))) as [->|H1].
    { change (s ++ [N0; N1]) with (s ++ [N0] ++ [N1]). rewrite app_assoc.
      rewrite list_lookup_middle; [reflexivity|]. rewrite length_app. cbn. lia. }
    destruct (decide (i < length s)).
    + rewrite lookup_app_l by lia. reflexivity.
    + rewrite !lookup_ge_None_2; [reflexivity|lia|].
      rewrite length_app. cbn [length]. lia.
Qed.

Lemma failed_length : length s1 = S (S (length s)).
Proof. unfold s1. rewrite length_insert, length_app. cbn [length]. lia. Qed.

Lemma failed_closed : tree.closed s1.
Proof.
  pose proof (lookup_lt_Some _ _ _ Hn) as He.
  apply closed_iff. intros i m Hi. rewrite failed_length. rewrite failed_lookup in Hi.
  destruct (closed_node _ _ _ Hs Hn) as [Hc Hp].
  repeat case_decide; simplify_eq.
  - split.
    + intros c Hin. cbn in Hin. apply elem_of_app in Hin as [Hin|Hin].
      * specialize (Hc c Hin). lia.
      * apply list_elem_of_In in Hin. cbn in Hin. lia.
    + intros p Hpp. specialize (Hp p Hpp). lia.
  - split; [intros c Hin; inversion Hin|]. intros p [= <-]. lia.
  - split; [intros c Hin; inversion Hin|]. intros p [= <-]. lia.
  - destruct (closed_node _ _ _ Hs Hi) as [Hc' Hp']. split.
    + intros c Hin. specialize (Hc' c Hin). lia.
    + intros p Hpp. specialize (Hp' p Hpp). lia.
Qed.

Lemma failed_tag_old i : i < length s -> tree.tag_of s1 i = tree.tag_of s i.
Proof.
  intros Hi. unfold tree.tag_of. rewrite failed_lookup.
  repeat case_decide; subst; try lia; [rewrite Hn|]; reflexivity.
Qed.

Lemma failed_get_old i key : i < length s -> tree.get s1 i key = tree.get s i key.
Proof.
  intros Hi. unfold tree.get. rewrite failed_lookup.
  repeat case_decide; subst; try lia; [rewrite Hn|]; reflexivity.
Qed.

Lemma failed_containers :
  tree.iterchildren s1 e "SynsetRelations"
  = tree.iterchildren s e "SynsetRelations" ++ [length s].
Proof.
  pose proof (lookup_lt_Some _ _ _ Hn) as He.
  destruct (closed_node _ _ _ Hs Hn) as [Hc _].
  unfold tree.iterchildren, tree.children_of in *. rewrite failed_lookup.
  rewrite decide_True by reflexivity. rewrite Hn. cbn [tree.children n'].
  rewrite filter_app.
  rewrite (filter_ext_elem _ (fun c => tree.tag_of s c = Some "SynsetRelations")).
  2:{ intros c Hin. rewrite failed_tag_old by (apply Hc, Hin). reflexivity. }
  f_equal.
  rewrite !filter_cons, filter_nil. unfold tree.tag_of. rewrite !failed_lookup.
  repeat case_decide; simplify_eq; try lia; reflexivity.
Qed.

Lemma failed_leaf i :
  i = length s \/ i = S (length s) -> tree.children_of s1 i = [].
Proof.
  pose proof (lookup_lt_Some _ _ _ Hn) as He.
  intros Hi. unfold tree.children_of. rewrite failed_lookup.
  repeat case_decide; simplify_eq; try lia; reflexivity.
Qed.

Lemma failed_relation_elements :
  tree.iterchildren s e "SynsetRelations" = [] ->
  Spec.relation_elements s1 e = [].
Proof.
  intros Hnone. unfold Spec.relation_elements.
  rewrite failed_containers, Hnone. cbn [app flat_map]. rewrite app_nil_r.
  unfold tree.iterchildren. rewrite failed_leaf by (left; reflexivity). reflexivity.
Qed.

End AfterFailedCall.

(** X12.  A view constructed on a node without container keeps [None] as
    [refs_el] for good.  Where [validate_relation] returns for the pair and
    the type and the target are strings that lxml takes as attribute values,
    the call of [add_relation] raises AttributeError, and the same call on the
    same view raises it again, although the first call has put a container
    under the node: each call leaves one more empty SynsetRelations and one
    more SynsetRelation as children of the node itself, nothing is refused as
    a duplicate, and [all_relations] stays empty. *)
Theorem add_relation_fails_again (s : tree.store) (e : tree.elem) (n : tree.node)
    (reltypes syn_ids : list string) (v : Synset.validator) (reltype target : string) :
  tree.closed s -> s !! e = Some n ->
  tree.iterchildren s e "SynsetRelations" = [] ->
  v (etree.get s e "id") reltype target = None ->
  etree.xml_compatible reltype = true -> etree.xml_compatible target = true ->
  exists self s1 s2,
    Synset.__init__ e reltypes syn_ids s = Returns self
    /\ Synset.add_relation (Synset.with_validate_relation v self) reltype target s
       = (Raises (AttributeError "'NoneType' object has no attribute 'append'"), s1)
    /\ Synset.add_relation (Synset.with_validate_relation v self) reltype target s1
       = (Raises (AttributeError "'NoneType' object has no attribute 'append'"), s2)
    /\ tree.children_of s2 e
       = tree.children n
         ++ [length s; S (length s); S (S (length s)); S (S (S (length s)))]
    /\ tree.iterchildren s2 e "SynsetRelations" = [length s; S (S (length s))]
    /\ Synset.all_relations self s2 = Returns [].
Proof.
  intros Hs Hn Hnone Hok Hrt Htg.
  pose proof (failed_closed s e n reltype target Hs Hn) as Hs1.
  pose proof (failed_lookup s e n reltype target Hn) as Hlk1.
  pose proof (Hlk1 e) as Hn1. rewrite decide_True in Hn1 by reflexivity.
  pose proof (failed_relation_elements s e n reltype target Hs Hn Hnone) as Hrel1.
  pose proof (failed_length s e n reltype target) as Hlen1.
  pose proof (failed_containers s e n reltype target Hs Hn) as Hcont1.
  pose proof (failed_get_old s e n reltype target Hn) as Hget1.
  set (s1 := <[e := _]> (s ++ _)) in *.
  set (n1 := tree.Node _ _ _ _) in Hn1.
  pose proof (failed_lookup s1 e n1 reltype target Hn1) as Hlk2.
  pose proof (failed_containers s1 e n1 reltype target Hs1 Hn1) as Hcont2.
  pose proof (failed_leaf s1 e n1 reltype target Hn1) as Hleaf2.
  set (s2 := <[e := _]> (s1 ++ _)) in *.
  set (self := Synset.with_validate_relation v
                 {| Synset.synset_el := e; Synset.reltypes := reltypes;
                    Synset.syn_ids := syn_ids;
                    Synset.defs_els := head (tree.iterchildren s e "Definitions");
                    Synset.refs_el := None; Synset.validate_relation := None |}).
  assert (Hc2 : tree.iterchildren s2 e "SynsetRelations" = [length s; S (S (length s))]).
  { rewrite Hcont2, Hcont1, Hnone, Hlen1. reflexivity. }
  eexists. exists s1, s2. split; [apply init_returns|]. rewrite Hnone. cbn [head].
  fold self. split; [|split; [|split; [|split]]].
  - apply (add_relation_absent_container self v); try assumption; try reflexivity.
    cbn [self Synset.with_validate_relation Synset.synset_el].
    rewrite (relation_elements_without_container _ _ Hnone). intros H; inversion H.
  - apply (add_relation_absent_container self v reltype target s1 n1);
      try assumption; try reflexivity.
    + unfold Synset.id, etree.get. cbn [self Synset.with_validate_relation Synset.synset_el].
      rewrite Hget1 by (eapply lookup_lt_Some; eassumption). exact Hok.
    + cbn [self Synset.with_validate_relation Synset.synset_el].
      rewrite Hrel1. intros H; inversion H.
  - unfold tree.children_of. rewrite (Hlk2 e), decide_True by reflexivity.
    cbn [tree.children n1]. rewrite Hlen1, <- app_assoc. reflexivity.
  - exact Hc2.
  - rewrite all_relations_in_document_order.
    cbn [self Synset.with_validate_relation Synset.synset_el].
    unfold Spec.relation_elements. rewrite Hc2. cbn [flat_map]. rewrite app_nil_r.
    unfold tree.iterchildren.
    rewrite (Hleaf2 (S (S (length s)))) by (left; congruence).
    unfold tree.children_of at 1. rewrite (Hlk2 (length s)).
    pose proof (lookup_lt_Some _ _ _ Hn) as He.
    rewrite decide_False by lia. rewrite decide_False by lia.
    rewrite decide_False by lia. rewrite (Hlk1 (length s)).
    rewrite decide_False by lia. rewrite decide_True by reflexivity. reflexivity.
Qed.

Lemma add_relation_fails_again_witness :
  tree.closed Bare.doc
  /\ exists self s1 s2,
       Synset.__init__ 1 Docstring.known_reltypes Docstring.known_ids Bare.doc
       = Returns self
       /\ Synset.add_relation
            (Synset.with_validate_relation
               (Spec.validate_relation Docstring.known_reltypes Docstring.known_ids)
               self)
            "has_hyperonym" "eng-30-00322847-v" Bare.doc
          = (Raises (AttributeError "'NoneType' object has no attribute 'append'"), s1)
       /\ Synset.add_relation
            (Synset.with_validate_relation
               (Spec.validate_relation Docstring.known_reltypes Docstring.known_ids)
               self)
            "has_hyperonym" "eng-30-00322847-v" s1
          = (Raises (AttributeError "'NoneType' object has no attribute 'append'"), s2)
       /\ tree.children_of s2 1 = [2; 3; 4; 5]
       /\ Synset.all_relations self s2 = Returns [].
Proof.
  split; [reflexivity|].
  destruct (add_relation_fails_again Bare.doc 1
              (tree.Node "Synset" [("id", "eng-30-00324560-v"); ("ili", "i23355")]
                 [] (Some 0))
              Docstring.known_reltypes Docstring.known_ids
              (Spec.validate_relation Docstring.known_reltypes Docstring.known_ids)
              "has_hyperonym" "eng-30-00322847-v")
    as (self & s1 & s2 & Hinit & H1 & H2 & Hch & _ & Hall); try reflexivity.
  exists self, s1, s2. repeat (split; [assumption|]). exact Hall.
Defined.

(** X13.  After the failed call on a node without container (the type and
    the target being strings that lxml takes as attribute values), a view
    constructed anew finds the container that the failed call has left, and
    the same call on the new view returns: the relation is now listed once by
    [all_relations], under the container, while the SynsetRelation that the
    failed call has left directly under the node stays where it is, with the
    same type and target. *)
Theorem add_relation_retry_on_fresh_view (s : tree.store) (e : tree.elem)
    (n : tree.node) (reltypes syn_ids : list string) (v : Synset.validator)
    (reltype target : string) :
  tree.closed s -> s !! e = Some n ->
  tree.iterchildren s e "SynsetRelations" = [] ->
  v (etree.get s e "id") reltype target = None ->
  etree.xml_compatible reltype = true -> etree.xml_compatible target = true ->
  exists self s1 fresh s2,
    Synset.__init__ e reltypes syn_ids s = Returns self
    /\ Synset.add_relation (Synset.with_validate_relation v self) reltype target s
       = (Raises (AttributeError "'NoneType' object has no attribute 'append'"), s1)
    /\ Synset.__init__ e reltypes syn_ids s1 = Returns fresh
    /\ Synset.refs_el fresh = Some (length s)
    /\ Synset.add_relation (Synset.with_validate_relation v fresh) reltype target s1
       = (Returns PyNone, s2)
    /\ tree.children_of s2 e = tree.children n ++ [length s; S (length s)]
    /\ tree.children_of s2 (length s) = [S (S (length s))]
    /\ (forall i, i = S (length s) \/ i = S (S (length s)) ->
          tree.tag_of s2 i = Some "SynsetRelation"
          /\ tree.get s2 i "relType" = Some reltype
          /\ tree.get s2 i "target" = Some target)
    /\ Synset.all_relations fresh s2 = Returns [Relation.make (S (S (length s)))].
Proof.
  intros Hs Hn Hnone Hok Hrt Htg. pose proof (lookup_lt_Some _ _ _ Hn) as He.
  pose proof (failed_closed s e n reltype target Hs Hn) as Hs1.
  pose proof (failed_lookup s e n reltype target Hn) as Hlk1.
  pose proof (Hlk1 e) as Hn1. rewrite decide_True in Hn1 by reflexivity.
  pose proof (failed_relation_elements s e n reltype target Hs Hn Hnone) as Hrel1.
  pose proof (failed_length s e n reltype target) as Hlen1.
  pose proof (failed_containers s e n reltype target Hs Hn) as Hcont1.
  pose proof (failed_get_old s e n reltype target Hn) as Hget1.
  pose proof (failed_leaf s e n reltype target Hn) as Hleaf1.
  rewrite Hnone in Hcont1. cbn [app] in Hcont1.
  set (s1 := <[e := _]> (s ++ _)) in *.
  set (n1 := tree.Node _ _ _ _) in Hn1.
  set (N := tree.Node "SynsetRelation"
              [("provenance", "odwn"); ("relType", reltype); ("target", target)]
              [] (Some (length s))).
  set (s2 := alter (tree.add_child (length s1)) (length s) (s1 ++ [N])).
  assert (Hr1 : length s < length s1) by lia.
  assert (He1 : e < length s1) by lia.
  assert (Hnew : s2 !! length s1 = Some N).
  { unfold s2. rewrite list_lookup_alter_ne by lia.
    apply list_lookup_middle. reflexivity. }
  eexists. exists s1. eexists. exists s2.
  split; [apply init_returns|]. rewrite Hnone. cbn [head].
  split; [|split; [apply init_returns|]]; rewrite ?Hcont1; cbn [head Synset.refs_el].
  - apply (add_relation_absent_container
             (Synset.with_validate_relation v
                {| Synset.synset_el := e; Synset.reltypes := reltypes;
                   Synset.syn_ids := syn_ids;
                   Synset.defs_els := head (tree.iterchildren s e "Definitions");
                   Synset.refs_el := None; Synset.validate_relation := None |})
             v reltype target s n); try assumption; try reflexivity.
    cbn [Synset.with_validate_relation Synset.synset_el].
    rewrite (relation_elements_without_container _ _ Hnone). intros H; inversion H.
  - split; [reflexivity|]. split; [|split; [|split; [|split]]].
    + apply (add_relation_appends
               (Synset.with_validate_relation v
                  {| Synset.synset_el := e; Synset.reltypes := reltypes;
                     Synset.syn_ids := syn_ids;
                     Synset.defs_els := head (tree.iterchildren s1 e "Definitions");
                     Synset.refs_el := Some (length s);
                     Synset.validate_relation := None |})
               v reltype target s1 n1 (length s)); try assumption;
        try reflexivity.
      * unfold Synset.id, etree.get. cbn [Synset.with_validate_relation Synset.synset_el].
        rewrite Hget1 by exact He. exact Hok.
      * cbn [Synset.with_validate_relation Synset.synset_el].
        rewrite Hrel1. intros H; inversion H.
    + unfold s2. rewrite children_of_grown by exact He1.
      rewrite decide_False by lia. unfold tree.children_of. rewrite Hn1. reflexivity.
    + unfold s2. rewrite children_of_grown by exact Hr1.
      rewrite decide_True by reflexivity.
      rewrite Hleaf1 by (left; reflexivity). rewrite Hlen1. reflexivity.
    + intros i [->| ->].
      * unfold s2. rewrite tag_of_grown, !get_grown by lia.
        unfold tree.tag_of, tree.get. rewrite (Hlk1 (S (length s))).
        rewrite decide_False by lia. rewrite decide_False by lia.
        rewrite decide_True by reflexivity. cbn. rewrite ?String.eqb_refl.
        split; [reflexivity|]. split; reflexivity.
      * rewrite <- Hlen1. unfold tree.tag_of, tree.get. rewrite Hnew. cbn.
        rewrite ?String.eqb_refl. split; [reflexivity|]. split; reflexivity.
    + rewrite all_relations_in_document_order. cbn [Synset.synset_el].
      unfold Spec.relation_elements, s2.
      rewrite (iterchildren_grown s1 (length s) (length s1) N e "SynsetRelations"
                 Hs1 Hr1 He1 eq_refl).
      rewrite decide_False by (intros [H _]; lia).
      rewrite Hcont1. cbn [app flat_map]. rewrite app_nil_r.
      rewrite (iterchildren_grown s1 (length s) (length s1) N (length s) "SynsetRelation"
                 Hs1 Hr1 Hr1 eq_refl).
      rewrite decide_True by (split; reflexivity).
      unfold tree.iterchildren. rewrite Hleaf1 by (left; reflexivity).
      rewrite Hlen1. reflexivity.
Qed.

Lemma add_relation_retry_on_fresh_view_witness :
  tree.closed Bare.doc
  /\ exists self s1 fresh s2,
       Synset.__init__ 1 Docstring.known_reltypes Docstring.known_ids Bare.doc
       = Returns self
       /\ Synset.add_relation
            (Synset.with_validate_relation
               (Spec.validate_relation Docstring.known_reltypes Docstring.known_ids)
               self)
            "has_hyperonym" "eng-30-00322847-v" Bare.doc
          = (Raises (AttributeError "'NoneType' object has no attribute 'append'"), s1)
       /\ Synset.__init__ 1 Docstring.known_reltypes Docstring.known_ids s1
          = Returns fresh
       /\ Synset.add_relation
            (Synset.with_validate_relation
               (Spec.validate_relation Docstring.known_reltypes Docstring.known_ids)
               fresh)
            "has_hyperonym" "eng-30-00322847-v" s1
          = (Returns PyNone, s2)
       /\ tree.children_of s2 1 = [2; 3]
       /\ tree.children_of s2 2 = [4]
       /\ Synset.all_relations fresh s2 = Returns [Relation.make 4].
Proof.
  split; [reflexivity|].
  destruct (add_relation_retry_on_fresh_view Bare.doc 1
              (tree.Node "Synset" [("id", "eng-30-00324560-v"); ("ili", "i23355")]
                 [] (Some 0))
              Docstring.known_reltypes Docstring.known_ids
              (Spec.validate_relation Docstring.known_reltypes Docstring.known_ids)
              "has_hyperonym" "eng-30-00322847-v")
    as (self & s1 & fresh & s2 & Hinit & H1 & Hinit' & _ & H2 & Hch & Hch' & _ & Hall);
    try reflexivity.
  exists self, s1, fresh, s2. repeat (split; [assumption|]). exact Hall.
Defined.

(** ** [relations] after a relation has been added *)

Lemma of_type_grown s r c N t (els : list nat) :
  (forall x, x ∈ els -> x < length s) ->
  Spec.of_type (alter (tree.add_child c) r (s ++ [N])) t (map Relation.make els)
  = Spec.of_type s t (map Relation.make els).
Proof.
  intros Hl. unfold Spec.of_type. apply List.filter_ext_in. intros rel Hin.
  apply in_map_iff in Hin as (x & <- & Hx). apply list_elem_of_In, Hl in Hx.
  unfold Relation.get_reltype, etree.get. cbn [Relation.relation_el].
  rewrite get_grown by exact Hx. reflexivity.
Qed.

Lemma of_type_app s t (a b : list Relation.t) :
  Spec.of_type s t (a ++ b) = Spec.of_type s t a ++ Spec.of_type s t b.
Proof. unfold Spec.of_type. apply List.filter_app. Qed.

(** X14.  Where [add_relation] has added a pair whose type holds no double
    quote (the conditions are those of the successful call, the type and the
    target being strings that lxml takes as attribute values), [relations] with
    that type, on the same view, returns what it returned before the call
    with the new relation placed after the relations of the first container,
    and the new relation has the target of the call; [relations] with another
    type returns what it returned before. *)
Theorem relations_after_add (s : tree.store) (e : tree.elem) (n : tree.node)
    (r : tree.elem) (reltypes syn_ids : list string) (v : Synset.validator)
    (reltype target : string) :
  tree.closed s -> s !! e = Some n -> NoDup (tree.children n) ->
  head (tree.iterchildren s e "SynsetRelations") = Some r ->
  v (etree.get s e "id") reltype target = None ->
  (Some reltype, Some target)
    ∉ Spec.content s (map Relation.make (Spec.relation_elements s e)) ->
  etree.xml_compatible reltype = true -> etree.xml_compatible target = true ->
  ElementPath.mem_char ElementPath.dquote reltype = false ->
  exists self s' before after,
    Synset.__init__ e reltypes syn_ids s = Returns self
    /\ Synset.add_relation (Synset.with_validate_relation v self) reltype target s
       = (Returns PyNone, s')
    /\ Synset.relations self reltype s = Returns (before ++ after)
    /\ Synset.relations self reltype s'
       = Returns (before ++ [Relation.make (length s)] ++ after)
    /\ Relation.get_target (Relation.make (length s)) s' = Some target
    /\ forall t, ElementPath.mem_char ElementPath.dquote t = false -> t <> reltype ->
         Synset.relations self t s' = Synset.relations self t s.
Proof.
  intros Hs Hn Hnd Hhead Hok Hnew Hrt Htg Hq.
  destruct (head_iterchildren_valid _ _ _ _ Hs Hhead) as (Hr & _ & _).
  pose proof (lookup_lt_Some _ _ _ Hn) as He.
  set (N := tree.Node "SynsetRelation"
              [("provenance", "odwn"); ("relType", reltype); ("target", target)]
              [] (Some r)).
  destruct (relation_elements_grown s e n r N Hs Hn Hnd Hhead eq_refl)
    as (A & B & HAB & HAB').
  assert (HA : forall x, x ∈ A -> x < length s).
  { intros x Hx. apply (relation_elements_closed s e x Hs). rewrite HAB.
    apply elem_of_app. left. exact Hx. }
  assert (HB : forall x, x ∈ B -> x < length s).
  { intros x Hx. apply (relation_elements_closed s e x Hs). rewrite HAB.
    apply elem_of_app. right. exact Hx. }
  set (s' := alter (tree.add_child (length s)) r (s ++ [N])) in *.
  assert (Hlast : s' !! length s = Some N).
  { unfold s'. rewrite list_lookup_alter_ne by lia.
    apply list_lookup_middle. reflexivity. }
  assert (Hrel : forall t,
            ElementPath.mem_char ElementPath.dquote t = false ->
            Synset.relations
              {| Synset.synset_el := e; Synset.reltypes := reltypes;
                 Synset.syn_ids := syn_ids;
                 Synset.defs_els := head (tree.iterchildren s e "Definitions");
                 Synset.refs_el := Some r; Synset.validate_relation := None |} t s
            = Returns (Spec.of_type s t (map Relation.make A)
                       ++ Spec.of_type s t (map Relation.make B))
            /\ Synset.relations
                 {| Synset.synset_el := e; Synset.reltypes := reltypes;
                    Synset.syn_ids := syn_ids;
                    Synset.defs_els := head (tree.iterchildren s e "Definitions");
                    Synset.refs_el := Some r; Synset.validate_relation := None |} t s'
               = Returns (Spec.of_type s t (map Relation.make A)
                          ++ Spec.of_type s' t [Relation.make (length s)]
                          ++ Spec.of_type s t (map Relation.make B))).
  { intros t Ht. rewrite !(relations_filtered _ _ _ Ht). cbn [Synset.synset_el].
    rewrite HAB, HAB', !map_app, !of_type_app. unfold s'.
    rewrite (of_type_grown _ _ _ _ _ _ HA), (of_type_grown _ _ _ _ _ _ HB).
    split; reflexivity. }
  eexists. exists s', (Spec.of_type s reltype (map Relation.make A)),
    (Spec.of_type s reltype (map Relation.make B)).
  split; [apply init_returns|]. rewrite Hhead.
  split; [|split; [|split; [|split]]].
  - apply (add_relation_appends _ v _ _ _ n r); try assumption; reflexivity.
  - apply Hrel, Hq.
  - destruct (Hrel reltype Hq) as [_ ->]. do 3 f_equal.
    unfold Spec.of_type, Relation.get_reltype, etree.get, tree.get.
    cbn [List.filter Relation.relation_el]. rewrite Hlast. cbn.
    rewrite ?String.eqb_refl. reflexivity.
  - unfold Relation.get_target, etree.get, tree.get. cbn [Relation.relation_el].
    rewrite Hlast. cbn. rewrite ?String.eqb_refl. reflexivity.
  - intros t Ht Hne. destruct (Hrel t Ht) as [-> ->]. do 2 f_equal.
    unfold Spec.of_type, Relation.get_reltype, etree.get, tree.get.
    cbn [List.filter Relation.relation_el]. rewrite Hlast. cbn.
    destruct (String.eqb_spec reltype t) as [E|_]; [congruence|reflexivity].
Qed.

Lemma relations_after_add_witness :
  tree.closed Docstring.doc
  /\ exists self s' before after,
       Synset.__init__ 1 Docstring.known_reltypes Docstring.known_ids Docstring.doc
       = Returns self
       /\ Synset.add_relation
            (Synset.with_validate_relation
               (Spec.validate_relation Docstring.known_reltypes Docstring.known_ids)
               self)
            "has_hyperonym" "eng-30-00325085-v" Docstring.doc
          = (Returns PyNone, s')
       /\ Synset.relations self "has_hyperonym" Docstring.doc
          = Returns (before ++ after)
       /\ Synset.relations self "has_hyperonym" s'
          = Returns (before ++ [Relation.make 6] ++ after)
       /\ Synset.relations self "has_hyponym" s'
          = Synset.relations self "has_hyponym" Docstring.doc.
Proof.
  split; [reflexivity|].
  destruct (relations_after_add Docstring.doc 1
              (tree.Node "Synset" [("id", "eng-30-00324560-v"); ("ili", "i23355")]
                 [2; 3] (Some 0))
              3 Docstring.known_reltypes Docstring.known_ids
              (Spec.validate_relation Docstring.known_reltypes Docstring.known_ids)
              "has_hyperonym" "eng-30-00325085-v")
    as (self & s' & before & after & Hinit & Hadd & Hb & Ha & _ & Hother);
    try reflexivity.
  - apply NoDup_cons. split; [|apply NoDup_singleton].
    intros H. apply list_elem_of_In in H. simpl in H. lia.
  - intros H. apply list_elem_of_In in H. simpl in H.
    destruct H as [H|[H|[]]]; discriminate.
  - exists self, s', before, after.
    split; [exact Hinit|]. split; [exact Hadd|]. split; [exact Hb|].
    split; [exact Ha|]. apply Hother; [reflexivity|discriminate].
Defined.

(** ** What [remove] leaves in place *)

Lemma unlink_frame s e p :
  tree.getparent s e = Some p ->
  length (etree.unlink e s) = length s
  /\ (forall i, tree.tag_of (etree.unlink e s) i = tree.tag_of s i)
  /\ (forall i key, tree.get (etree.unlink e s) i key = tree.get s i key)
  /\ (forall i, i <> p -> tree.children_of (etree.unlink e s) i = tree.children_of s i)
  /\ (forall i, i <> e -> tree.getparent (etree.unlink e s) i = tree.getparent s i)
  /\ (forall i, i <> e -> i <> p -> etree.unlink e s !! i = s !! i).
Proof.
  intros Hp. unfold etree.unlink. rewrite Hp.
  split; [rewrite !length_alter; reflexivity|].
  unfold tree.tag_of, tree.get, tree.children_of, tree.getparent.
  repeat split; intros i; intros; rewrite !list_lookup_alter;
    repeat case_decide; subst; try congruence; destruct (s !! _); reflexivity.
Qed.

Lemma remove_with_parent self s p :
  etree.getparent s (Synset.synset_el self) = Some p ->
  Synset.remove self s = (Returns tt, etree.unlink (Synset.synset_el self) s).
Proof.
  intros Hp. unfold Synset.remove, etree.remove. rewrite Hp.
  change (tree.getparent s (Synset.synset_el self))
    with (etree.getparent s (Synset.synset_el self)).
  rewrite Hp, decide_True by reflexivity. reflexivity.
Qed.

(** X15.  [remove] on a node with a parent rewrites two links and nothing
    else: the tree keeps its size, every element keeps its tag and its
    attributes, every element but the former parent keeps its children, every
    element but the node keeps its parent, and every other element is left
    untouched.  The node keeps its own children: it is detached with all that
    is below it. *)
Theorem remove_changes_two_links (self : Synset.t) (s : tree.store) (p : tree.elem) :
  etree.getparent s (Synset.synset_el self) = Some p ->
  exists s',
    Synset.remove self s = (Returns tt, s')
    /\ length s' = length s
    /\ (forall i, tree.tag_of s' i = tree.tag_of s i)
    /\ (forall i key, tree.get s' i key = tree.get s i key)
    /\ (forall i, i <> p -> tree.children_of s' i = tree.children_of s i)
    /\ (forall i, i <> Synset.synset_el self ->
          tree.getparent s' i = tree.getparent s i)
    /\ (forall i, i <> Synset.synset_el self -> i <> p -> s' !! i = s !! i).
Proof.
  intros Hp. exists (etree.unlink (Synset.synset_el self) s).
  split; [apply (remove_with_parent _ _ p), Hp | apply unlink_frame, Hp].
Qed.

Lemma remove_changes_two_links_witness :
  etree.getparent Format.doc (Synset.synset_el Format.synset) = Some 0
  /\ exists s',
       Synset.remove Format.synset Format.doc = (Returns tt, s')
       /\ length s' = 9
       /\ tree.children_of s' 1 = [2; 6]
       /\ tree.getparent s' 2 = Some 1.
Proof.
  split; [reflexivity|].
  destruct (remove_changes_two_links Format.synset Format.doc 0 eq_refl)
    as (s' & Hrem & Hlen & _ & _ & Hch & Hpar & _).
  exists s'. split; [exact Hrem|]. split; [exact Hlen|]. split.
  - rewrite Hch by discriminate. reflexivity.
  - rewrite Hpar by discriminate. reflexivity.
Defined.

Lemma iterchildren_same s s' x t :
  (forall i, tree.tag_of s' i = tree.tag_of s i) ->
  tree.children_of s' x = tree.children_of s x ->
  tree.iterchildren s' x t = tree.iterchildren s x t.
Proof.
  intros Ht Hc. unfold tree.iterchildren. rewrite Hc.
  apply list_filter_iff. intros c. rewrite Ht. reflexivity.
Qed.

Lemma relation_elements_same s s' e :
  (forall i, tree.tag_of s' i = tree.tag_of s i) ->
  tree.children_of s' e = tree.children_of s e ->
  (forall c, c ∈ tree.children_of s e -> tree.children_of s' c = tree.children_of s c) ->
  Spec.relation_elements s' e = Spec.relation_elements s e.
Proof.
  intros Ht He Hc. unfold Spec.relation_elements.
  rewrite (iterchildren_same s s' e _ Ht He).
  apply flat_map_ext_elem. intros c Hin.
  apply iterchildren_same; [exact Ht|]. apply Hc.
  unfold tree.iterchildren in Hin. apply list_elem_of_filter in Hin as [_ Hin]. exact Hin.
Qed.

Lemma glosses_same self ls s s' :
  (forall i, tree.tag_of s' i = tree.tag_of s i) ->
  (forall i key, tree.get s' i key = tree.get s i key) ->
  (forall d, Synset.defs_els self = Some d ->
     tree.children_of s' d = tree.children_of s d) ->
  Synset.glosses self ls s' = Synset.glosses self ls s.
Proof.
  intros Ht Hg Hd. unfold Synset.glosses.
  destruct (Synset.defs_els self) as [d|]; [|reflexivity].
  rewrite !(iterfind_child _ _ _ _ compile_Definition). cbn [outcome_bind].
  rewrite (iterchildren_same s s' d _ Ht (Hd d eq_refl)).
  f_equal. unfold etree.get.
  rewrite (list_filter_iff _ (fun def_el => tree.get s def_el "language" ∈ (Some <$> ls)))
    by (intros x; rewrite Hg; reflexivity).
  apply map_ext. intros x. apply Hg.
Qed.

(** X16.  A node that has been removed from its parent can still be read:
    where the parent is not the node itself or one of its children, the view
    constructed before [remove] is the view a construction after [remove]
    gives, and [id], [ili], [pos], [glosses], [all_relations] and, for a type
    without double quote, [relations] answer after [remove] what they answered
    before. *)
Theorem accessors_after_remove (s : tree.store) (e p : tree.elem)
    (reltypes syn_ids languages : list string) (t : string) :
  etree.getparent s e = Some p -> p <> e -> p ∉ tree.children_of s e ->
  ElementPath.mem_char ElementPath.dquote t = false ->
  exists self s',
    Synset.__init__ e reltypes syn_ids s = Returns self
    /\ Synset.remove self s = (Returns tt, s')
    /\ Synset.__init__ e reltypes syn_ids s' = Returns self
    /\ Synset.id self s' = Synset.id self s
    /\ Synset.ili self s' = Synset.ili self s
    /\ Synset.pos self s' = Synset.pos self s
    /\ Synset.glosses self languages s' = Synset.glosses self languages s
    /\ Synset.all_relations self s' = Synset.all_relations self s
    /\ Synset.relations self t s' = Synset.relations self t s.
Proof.
  intros Hp Hpe Hpc Ht.
  set (self := {| Synset.synset_el := e; Synset.reltypes := reltypes;
                  Synset.syn_ids := syn_ids;
                  Synset.defs_els := head (tree.iterchildren s e "Definitions");
                  Synset.refs_el := head (tree.iterchildren s e "SynsetRelations");
                  Synset.validate_relation := None |}).
  destruct (unlink_frame s e p Hp) as (_ & Htag & Hget & Hch & _ & _).
  pose proof (remove_with_parent self s p Hp) as Hrem.
  cbn [self Synset.synset_el] in Hrem.
  set (s' := etree.unlink e s) in *.
  assert (Hche : tree.children_of s' e = tree.children_of s e)
    by (apply Hch; congruence).
  assert (Hchc : forall c, c ∈ tree.children_of s e ->
                   tree.children_of s' c = tree.children_of s c).
  { intros c Hc. apply Hch. intros ->. contradiction. }
  exists self, s'. split; [apply init_returns|]. split; [exact Hrem|].
  assert (Hid : Synset.id self s' = Synset.id self s) by apply Hget.
  repeat split.
  - rewrite init_returns. unfold self.
    rewrite !(iterchildren_same s s' e _ Htag Hche). reflexivity.
  - exact Hid.
  - apply Hget.
  - unfold Synset.pos. rewrite Hid. reflexivity.
  - apply glosses_same; [exact Htag|exact Hget|]. intros d Hd. apply Hchc.
    cbn in Hd. apply head_Some_elem_of in Hd.
    unfold tree.iterchildren in Hd. apply list_elem_of_filter in Hd as [_ Hd]. exact Hd.
  - rewrite !all_relations_in_document_order. cbn [Synset.synset_el self].
    rewrite (relation_elements_same s s' e Htag Hche Hchc). reflexivity.
  - rewrite !(relations_filtered _ _ _ Ht). cbn [Synset.synset_el self].
    rewrite (relation_elements_same s s' e Htag Hche Hchc).
    f_equal. unfold Spec.of_type. apply List.filter_ext. intros rel.
    unfold Relation.get_reltype, etree.get. rewrite Hget. reflexivity.
Qed.

Lemma accessors_after_remove_witness :
  etree.getparent Format.doc 1 = Some 0
  /\ exists self s',
       Synset.__init__ 1 Docstring.known_reltypes Docstring.known_ids Format.doc
       = Returns self
       /\ Synset.remove self Format.doc = (Returns tt, s')
       /\ Synset.pos self s' = Returns "v"
       /\ Synset.glosses self ["en"; "nl"] s'
          = Returns [Some "cook with dry heat, usually in an oven";
                     Some "in een oven bereiden"]
       /\ Synset.relations self "has_hyperonym" s' = Returns [Relation.make 7].
Proof.
  split; [reflexivity|].
  destruct (accessors_after_remove Format.doc 1 0 Docstring.known_reltypes
              Docstring.known_ids ["en"; "nl"] "has_hyperonym")
    as (self & s' & Hinit & Hrem & _ & _ & _ & Hpos & Hgl & _ & Hrel);
    try reflexivity.
  - discriminate.
  - intros H. apply list_elem_of_In in H. simpl in H. lia.
  - exists self, s'. split; [exact Hinit|]. split; [exact Hrem|].
    rewrite format_synset in Hinit. injection Hinit as <-.
    rewrite Hpos, Hgl, Hrel. repeat split; reflexivity.
Defined.
